(** * OCO-2 visualisation client: a model of [frontend/src/App.js]

    The React component [App] of the repository is embedded function by
    function: the validity filter [validData], the request logic of
    [fetchData], the debounce effect together with [handleViewStateChange],
    the rendering hint [getPointRadius] and the trajectory builder
    [createTrajectories].

    JavaScript numbers are IEEE 754 binary64 values; they are modelled by
    Rocq's primitive floats, which are the same format, so that comparisons
    with NaN and the infinities behave as they do in the engine. *)

From Stdlib Require Import ZArith Lia Bool List Floats.
From stdpp Require Import base option list gmap strings pretty.


Set Warnings "-register-all".
Local Open Scope string_scope.
Local Open Scope list_scope.

(** ** JavaScript values *)

Module Js.

(** The values [response.json()] can produce: the JSON data model, plus
    [undefined], which is what reading an absent property yields. An object
    is the list of its own properties; the first entry for a key is the one
    a property read sees. *)
Inductive JsVal : Type :=
| JUndefined
| JNull
| JBool (b : bool)
| JNum (x : float)
| JStr (s : string)
| JArr (elems : list JsVal)
| JObj (props : list (string * JsVal)).

Arguments JNum x%_float.

(** ToBoolean. *)
Definition truthy (v : JsVal) : bool :=
  match v with
  | JUndefined | JNull => false
  | JBool b => b
  | JNum x => negb (is_zero x || is_nan x)
  | JStr s => negb (String.eqb s "")
  | JArr _ | JObj _ => true
  end.

(** The [typeof] operator ([typeof null] is ["object"]). *)
Definition typeof (v : JsVal) : string :=
  match v with
  | JUndefined => "undefined"
  | JBool _ => "boolean"
  | JNum _ => "number"
  | JStr _ => "string"
  | JNull | JArr _ | JObj _ => "object"
  end.

(** [Array.isArray]. *)
Definition isArray (v : JsVal) : bool :=
  match v with JArr _ => true | _ => false end.

Fixpoint own (props : list (string * JsVal)) (k : string) : JsVal :=
  match props with
  | [] => JUndefined
  | (k', v) :: rest => if String.eqb k k' then v else own rest k
  end.

(** An array length or index as a number. *)
Definition of_nat (n : nat) : float :=
  PrimFloat.of_uint63 (Uint63.of_Z (Z.of_nat n)).

(** [get v k] is the value of [v.k] when [v] is neither [null] nor
    [undefined]: an own property of an object, the [length] of an array or
    of a string, and [undefined] for any other name this program reads.
    Reading a property of [null] or [undefined] throws; [prop] below makes
    that explicit, and [get] is only meaningful behind a guard that rules
    the two out. *)
Definition get (v : JsVal) (k : string) : JsVal :=
  match v with
  | JObj props => own props k
  | JArr l => if String.eqb k "length" then JNum (of_nat (length l)) else JUndefined
  | JStr s => if String.eqb k "length" then JNum (of_nat (String.length s)) else JUndefined
  | _ => JUndefined
  end.

(** [prop v k] is [v.k]; [None] stands for the TypeError thrown when [v] is
    [null] or [undefined]. *)
Definition prop (v : JsVal) (k : string) : option JsVal :=
  match v with
  | JUndefined | JNull => None
  | _ => Some (get v k)
  end.

(** [v.length === n] for a natural number [n] and [v] neither [null] nor
    [undefined]. The length of an array or a string is an exact
    non-negative integer, so the comparison is decided on naturals; an
    object may carry any value under the name [length]. *)
Definition length_is (v : JsVal) (n : nat) : bool :=
  match v with
  | JArr l => Nat.eqb (length l) n
  | JStr s => Nat.eqb (String.length s) n
  | JObj props =>
      match own props "length" with
      | JNum x => (x =? of_nat n)%float
      | _ => false
      end
  | _ => false
  end.

(** [v[i]] for an array index [i], [v] neither [null] nor [undefined]. *)
Definition index (v : JsVal) (i : nat) : JsVal :=
  match v with
  | JArr l => nth i l JUndefined
  | JObj props => own props (pretty i)
  | JStr s =>
      match String.get i s with
      | Some c => JStr (String c EmptyString)
      | None => JUndefined
      end
  | _ => JUndefined
  end.

(** [Math.abs], [Math.max] and [Math.min] on numbers. A NaN argument makes
    the result NaN, and [+0] is larger than [-0]. *)
Definition is_neg_zero (x : float) : bool := is_zero x && get_sign x.

Definition math_abs (x : float) : float := abs x.

Definition math_max (a b : float) : float :=
  if is_nan a || is_nan b then nan
  else if (a <? b)%float then b
  else if (b <? a)%float then a
  else if is_neg_zero a then b else a.

Definition math_min (a b : float) : float :=
  if is_nan a || is_nan b then nan
  else if (a <? b)%float then a
  else if (b <? a)%float then b
  else if is_neg_zero a then a else b.

(** Whether ToPrimitive returns on [v], as it must before [v] is turned
    into a string or a number. A value parsed from JSON inherits its
    [valueOf] and its [toString]. The inherited [valueOf] of an object or
    an array returns the object itself, so the conversion goes on to
    [toString]; an object that carries a property named [toString] of its
    own hides the inherited method by data, which cannot be called, and
    the conversion throws a TypeError. The [toString] of an array joins
    the strings of its elements, [null] and [undefined] giving the empty
    string, so it throws where the conversion of an element does. *)
Fixpoint convertible (v : JsVal) : bool :=
  match v with
  | JArr elems => forallb convertible elems
  | JObj props =>
      match own props "toString" with
      | JUndefined => true
      | _ => false
      end
  | _ => true
  end.

End Js.

Import Js.

(** ** The validity filter *)

(** The callback of [data.filter] in [validData]. JavaScript's [&&] stops
    at the first falsy operand, and [filter] keeps an element when the
    callback's result is truthy; [&&] on booleans below gives [false] in
    exactly the cases where the chain stops early. The leading [d &&]
    rules out [null] and [undefined], so every later property read is a
    [get]. *)
Definition validPoint (d : JsVal) : bool :=
  truthy d &&
  truthy (get d "position") &&
  isArray (get d "position") &&
  length_is (get d "position") 2 &&
  String.eqb (typeof (get d "xco2")) "number" &&
  match get d "xco2" with
  | JNum x => (380 <=? x)%float && (x <=? 420)%float
  | _ => false
  end.

Definition validPolygon (d : JsVal) : bool :=
  truthy d &&
  truthy (get d "position") &&
  isArray (get d "position") &&
  length_is (get d "position") 2 &&
  truthy (get d "vertices") &&
  isArray (get d "vertices") &&
  length_is (get d "vertices") 4 &&
  String.eqb (typeof (get d "xco2")) "number" &&
  match get d "xco2" with
  | JNum x => (380 <=? x)%float && (x <=? 420)%float
  | _ => false
  end.

Definition validFeature (viewMode : string) (d : JsVal) : bool :=
  if String.eqb viewMode "point" then validPoint d else validPolygon d.

(** [validData]: the memoised filter over the [data] state. [data] is
    whatever the last response carried under [data]; [None] is the
    TypeError of calling [filter] on something that is not an array. *)
Definition validData (data : JsVal) (viewMode : string) : option (list JsVal) :=
  if negb (truthy data) || length_is data 0 then Some []
  else match data with
       | JArr l => Some (List.filter (validFeature viewMode) l)
       | _ => None
       end.

(** ** Requests and [fetchData] *)

(** What the component reads from deck.gl's first viewport. [getBounds] is
    the value of [viewport.getBounds()], an array
    [minLon, minLat, maxLon, maxLat] computed by the library. *)
Record Viewport := {
  longitude : float;
  latitude : float;
  zoom : float;
  getBounds : list float
}.

(** A thrown or rejected [Error]; the component reads its [message]. *)
Record JsError := { message : string }.

(** Calls of [console.error]. The [console.log] diagnostics of the
    component change no state; what they print is left out, what they can
    throw is not. *)
Inductive ConsoleError :=
| NoDataProperty (result : JsVal)
| ErrorFetchingData (e : JsError).

(** The [useState] cells that [fetchData] and [validData] read or write. *)
Record AppState := {
  data : JsVal;
  error : option string;
  viewMode : string;
  isGlobeMode : bool;
  startDate : string;
  endDate : string;
  console : list ConsoleError
}.

(** The query string of the request, before it is joined into the URL:
    [bounds], [zoom], [view_mode] and the optional dates. *)
Record Query := {
  q_bounds : list float;
  q_zoom : float;
  q_view_mode : string;
  q_start_date : option string;
  q_end_date : option string
}.

(** In globe mode the bounds are a window around the centre of the view:
    90 degrees of longitude to each side, 45 degrees of latitude to each
    side, the latitude clamped to the poles. *)
Definition globeBounds (vp : Viewport) : list float :=
  [ (longitude vp - 90)%float;
    math_max (-90) (latitude vp - 45);
    (longitude vp + 90)%float;
    math_min 90 (latitude vp + 45) ].

Definition dateParam (date : string) : option string :=
  if truthy (JStr date) then Some date else None.

(** The request [fetchData] issues: the bare [/data] URL ([None]) when
    there is no deck or no viewport yet, the URL with its query otherwise. *)
Definition buildRequest (s : AppState) (viewport : option Viewport) : option Query :=
  match viewport with
  | None => None
  | Some vp =>
      Some {| q_bounds := if isGlobeMode s then globeBounds vp else getBounds vp;
              q_zoom := zoom vp;
              q_view_mode := viewMode s;
              q_start_date := dateParam (startDate s);
              q_end_date := dateParam (endDate s) |}
  end.

(** How [await fetch(url)] followed by [await response.json()] can end. *)
Inductive Response :=
| NetworkError (e : JsError)
| InvalidJson (e : JsError)
| Json (result : JsVal).

Definition setData (d : JsVal) (s : AppState) : AppState :=
  {| data := d; error := error s; viewMode := viewMode s;
     isGlobeMode := isGlobeMode s; startDate := startDate s;
     endDate := endDate s; console := console s |}.

Definition setError (msg : string) (s : AppState) : AppState :=
  {| data := data s; error := Some msg; viewMode := viewMode s;
     isGlobeMode := isGlobeMode s; startDate := startDate s;
     endDate := endDate s; console := console s |}.

Definition consoleError (entry : ConsoleError) (s : AppState) : AppState :=
  {| data := data s; error := error s; viewMode := viewMode s;
     isGlobeMode := isGlobeMode s; startDate := startDate s;
     endDate := endDate s; console := console s ++ [entry] |}.

(** The [catch] block of [fetchData]. *)
Definition catchError (e : JsError) (s : AppState) : AppState :=
  setError (message e) (consoleError (ErrorFetchingData e) s).

(** The TypeError of reading [result.data] when [result] is [null]. *)
Definition readOfNull (k : string) : JsError :=
  {| message := ("Cannot read properties of null (reading '" ++ k ++ "')")%string |}.

(** The TypeError of a conversion to a primitive value that fails. *)
Definition cannotConvert : JsError :=
  {| message := "Cannot convert object to primitive value" |}.

(** [fetchData], with the network as a function from the request to the
    way it ends, run to completion on the state [s]. Between the test of
    [result.data] and [setData], the template literal of the first
    [console.log] turns [result.data.length] into a string: where that
    conversion throws, the [catch] block runs and [setData] is not
    reached. The comparison [result.data.length > 0] that follows
    converts the same value and throws in no further case. *)
Definition fetchData (net : option Query -> Response)
    (viewport : option Viewport) (s : AppState) : AppState :=
  match net (buildRequest s viewport) with
  | NetworkError e => catchError e s
  | InvalidJson e => catchError e s
  | Json result =>
      match prop result "data" with
      | None => catchError (readOfNull "data") s
      | Some d =>
          if negb (truthy d) then consoleError (NoDataProperty result) s
          else if convertible (get d "length") then setData d s
          else catchError cannotConvert s
      end
  end.

(** ** Debounced and immediate fetches *)

Module Debounce.

(** The dependency list of [fetchData]'s [useCallback]: the callback is a
    new function exactly when one of these changed. *)
Record FetchDeps := {
  d_isGlobeMode : bool;
  d_viewMode : string;
  d_startDate : string;
  d_endDate : string
}.

#[global] Instance FetchDeps_eq_dec : EqDecision FetchDeps.
Proof. solve_decision. Defined.

(** Time in milliseconds. [timer] is the pending [setTimeout] of the
    debounce effect: when it fires and the [fetchData] it will call.
    [calls] lists the calls of [fetchData] made so far, oldest first. *)
Record Sched := {
  clock : nat;
  deps : FetchDeps;
  landCoverVisible : bool;
  deckReady : bool;
  timer : option (nat * FetchDeps);
  calls : list (nat * FetchDeps)
}.

Inductive Event :=
| SetFetchDeps (d : FetchDeps)
| SetLandCoverVisible (b : bool)
| ViewStateChange
| Elapse (ms : nat).

(** After the first render: the effect has run once and armed its timer. *)
Definition mount (d : FetchDeps) (deck : bool) : Sched :=
  {| clock := 0; deps := d; landCoverVisible := false; deckReady := deck;
     timer := Some (500, d); calls := [] |}.

(** The effect with dependencies [fetchData, landCoverVisible]: when one
    of them changed, the cleanup clears the pending timer and the effect
    arms a new one, 500 ms from now. *)
Definition rerunEffect (d : FetchDeps) (lc : bool) (s : Sched) : Sched :=
  {| clock := clock s; deps := d; landCoverVisible := lc;
     deckReady := deckReady s;
     timer := Some (clock s + 500, d); calls := calls s |}.

(** [handleViewStateChange], the [onViewStateChange] of the deck:
    [setViewState], which is no dependency of the effect, and then, when
    the deck exists, [fetchData()] at once. *)
Definition handleViewStateChange (s : Sched) : Sched :=
  if deckReady s then
    {| clock := clock s; deps := deps s;
       landCoverVisible := landCoverVisible s; deckReady := deckReady s;
       timer := timer s; calls := calls s ++ [(clock s, deps s)] |}
  else s.

Definition step (s : Sched) (ev : Event) : Sched :=
  match ev with
  | SetFetchDeps d =>
      if decide (d = deps s) then s else rerunEffect d (landCoverVisible s) s
  | SetLandCoverVisible b =>
      if decide (b = landCoverVisible s) then s else rerunEffect (deps s) b s
  | ViewStateChange => handleViewStateChange s
  | Elapse ms =>
      match timer s with
      | Some (t, d) =>
          if (t <=? clock s + ms)%nat then
            {| clock := clock s + ms; deps := deps s;
               landCoverVisible := landCoverVisible s; deckReady := deckReady s;
               timer := None; calls := calls s ++ [(t, d)] |}
          else
            {| clock := clock s + ms; deps := deps s;
               landCoverVisible := landCoverVisible s; deckReady := deckReady s;
               timer := timer s; calls := calls s |}
      | None =>
          {| clock := clock s + ms; deps := deps s;
             landCoverVisible := landCoverVisible s; deckReady := deckReady s;
             timer := None; calls := calls s |}
      end
  end.

Definition run (s : Sched) (evs : list Event) : Sched := fold_left step evs s.

End Debounce.

(** ** Rendering hints *)

Definition getPointRadius (zoom : float) : float :=
  if (zoom <=? 3)%float then 100000
  else if (zoom <=? 5)%float then 75000
  else 50000.

Definition getGridSize (zoom : float) : float :=
  if (zoom <=? 3)%float then 5
  else if (zoom <=? 5)%float then 2
  else 1.

(** ** Conversions to strings and to numbers *)

(** Number formatting is the engine's: [numberToString] is
    [Number.prototype.toString()] and [numberToFixed x n] is
    [x.toFixed(n)], for the digit counts this program uses. *)
Class Formatter := {
  numberToString : float -> string;
  numberToFixed : float -> nat -> string
}.

Section Conversions.
Context `{Formatter}.

(** [v.toString()] on a value read from the response. Reading the method
    of [null] or [undefined] throws ([None]); an object that carries a
    property named [toString] of its own hides the inherited method by
    something that cannot be called, which throws too. An array joins
    the strings of its elements with commas, [null] and [undefined]
    giving the empty string. *)
Fixpoint toString (v : JsVal) : option string :=
  match v with
  | JUndefined | JNull => None
  | JBool true => Some "true"
  | JBool false => Some "false"
  | JNum x => Some (numberToString x)
  | JStr s => Some s
  | JArr elems =>
      (fix join (l : list JsVal) : option string :=
         match l with
         | [] => Some ""
         | x :: rest =>
             first ← match x with
                     | JUndefined | JNull => Some ""
                     | _ => toString x
                     end;
             match rest with
             | [] => Some first
             | _ => others ← join rest; Some (first ++ "," ++ others)%string
             end
         end) elems
  | JObj props =>
      match own props "toString" with
      | JUndefined => Some "[object Object]"
      | _ => None
      end
  end.

(** [`${v}`], the conversion a template literal applies: ToString. *)
Definition template (v : JsVal) : option string :=
  match v with
  | JUndefined => Some "undefined"
  | JNull => Some "null"
  | _ => toString v
  end.

End Conversions.

(** ** Arrays in the heap and [createTrajectories] *)

(** [createTrajectories] copies its argument, sorts the copy in place and
    fills arrays of its own. Arrays that are created or written are cells
    of a heap, named by their location, so that a write through one name
    is seen through every other name of the same array. An element is a
    value read from the response or a reference to another array. *)
Definition loc := nat.

Inductive Elem :=
| EVal (v : JsVal)
| ERef (l : loc).

Abbreviation heap := (gmap loc (list Elem)).

(** A new array: an array literal, or the result of a spread. *)
Definition alloc (h : heap) (xs : list Elem) : loc * heap :=
  let l := fresh (dom h) in (l, <[l := xs]> h).

(** [a.push(x)]. *)
Definition push (h : heap) (a : loc) (x : Elem) : option heap :=
  xs ← h !! a; Some (<[a := xs ++ [x]]> h).

(** [[...a]]. *)
Definition spread (h : heap) (a : loc) : option (loc * heap) :=
  xs ← h !! a; Some (alloc h xs).

Definition truthyElem (e : Elem) : bool :=
  match e with
  | EVal v => truthy v
  | ERef _ => true
  end.

(** [e.k]; an array has none of the properties this function reads. *)
Definition propElem (e : Elem) (k : string) : option JsVal :=
  match e with
  | EVal v => prop v k
  | ERef _ => Some JUndefined
  end.

(** [v[i]]; [None] is the TypeError of indexing [null] or [undefined]. *)
Definition item (v : JsVal) (i : nat) : option JsVal :=
  match v with
  | JUndefined | JNull => None
  | _ => Some (index v i)
  end.

(** [e.position[i]]. *)
Definition coordinate (e : Elem) (i : nat) : option JsVal :=
  p ← propElem e "position"; item p i.

(** [a.time || a.position[0]]. *)
Definition sortKey (a : Elem) : option JsVal :=
  t ← propElem a "time"; if truthy t then Some t else coordinate a 0.

(** What the function takes from the JavaScript engine, besides the
    printing of numbers. [string_to_number] is StringToNumber, the
    reading of a string as a number, NaN where it is none. [array_sort]
    is [Array.prototype.sort] with a comparator that may throw ([None]):
    a sort that returns has rearranged the array, in an order that
    ECMAScript leaves to the implementation when the comparator is not
    consistent, and the sort returns when the comparator returns on all
    elements. *)
Class Engine := {
  string_to_number : string -> float;
  array_sort : (Elem -> Elem -> option float) -> list Elem -> option (list Elem);
  array_sort_permutes : forall cmp xs ys,
    array_sort cmp xs = Some ys -> ys ≡ₚ xs;
  array_sort_returns : forall cmp xs,
    (forall a b, a ∈ xs -> b ∈ xs -> is_Some (cmp a b)) ->
    is_Some (array_sort cmp xs)
}.

Section Trajectories.
Context `{Formatter} `{Engine}.

(** ToNumber, the coercion that [-] applies to each operand. An array or
    an object is first made a primitive value, which for values read
    from a response is the string of its [toString]; [None] is the
    TypeError of an object that has no primitive value. *)
Definition to_number (v : JsVal) : option float :=
  match v with
  | JUndefined => Some nan
  | JNull => Some 0%float
  | JBool true => Some 1%float
  | JBool false => Some 0%float
  | JNum x => Some x
  | JStr s => Some (string_to_number s)
  | JArr _ | JObj _ => s ← toString v; Some (string_to_number s)
  end.

(** [a - b]. *)
Definition subtract (a b : JsVal) : option float :=
  x ← to_number a; y ← to_number b; Some (x - y)%float.

(** The comparator of the sort. *)
Definition byTime (a b : Elem) : option float :=
  ka ← sortKey a; kb ← sortKey b; subtract ka kb.

(** [Math.abs(a - b) > 1]. *)
Definition apart (a b : JsVal) : option bool :=
  d ← subtract a b; Some (1 <? math_abs d)%float.

(** The condition that ends the current line; [nextPoint] is [None] when
    [i + 1] is past the end of the array. *)
Definition breaksLine (point : Elem) (nextPoint : option Elem) : option bool :=
  match nextPoint with
  | None => Some true
  | Some np =>
      if negb (truthyElem np) then Some true
      else
        nx ← coordinate np 0; px ← coordinate point 0;
        far ← apart nx px;
        if far : bool then Some true
        else ny ← coordinate np 1; py ← coordinate point 1; apart ny py
  end.

(** The block run when a line ends: keep a copy of it if it has more than
    one point. *)
Definition closeLine (trajectories currentLine : loc) (h : heap) : option heap :=
  line ← h !! currentLine;
  if (1 <? length line)%nat then
    '(copy, h) ← spread h currentLine; push h trajectories (ERef copy)
  else Some h.

(** The [for] loop, from index [i] on. [fuel] bounds the number of
    iterations; the length of the array is enough. *)
Fixpoint loop (fuel i : nat) (sortedPoints trajectories currentLine : loc)
    (h : heap) : option heap :=
  xs ← h !! sortedPoints;
  match xs !! i with
  | None => Some h
  | Some point =>
      match fuel with
      | 0 => None
      | S fuel =>
          h ← push h currentLine point;
          ends ← breaksLine point (xs !! (i + 1));
          if ends : bool then
            h ← closeLine trajectories currentLine h;
            let '(currentLine, h) := alloc h [] in
            loop fuel (S i) sortedPoints trajectories currentLine h
          else loop fuel (S i) sortedPoints trajectories currentLine h
      end
  end.

(** [createTrajectories(points)]: the location of the returned array of
    lines and the heap it leaves; [None] when a TypeError escapes. *)
Definition createTrajectories (h : heap) (points : loc) : option (loc * heap) :=
  let '(trajectories, h) := alloc h [] in
  let '(currentLine, h) := alloc h [] in
  '(sortedPoints, h) ← spread h points;
  xs ← h !! sortedPoints;
  ys ← array_sort byTime xs;
  let h := <[sortedPoints := ys]> h in
  h ← loop (length ys) 0 sortedPoints trajectories currentLine h;
  Some (trajectories, h).

End Trajectories.

(** The lines stored in the array at [trajectories]. *)
Definition readLines (h : heap) (trajectories : loc) : option (list (list Elem)) :=
  refs ← h !! trajectories;
  mapM (fun r => match r with ERef l => h !! l | EVal _ => None end) refs.

(** The longitude and latitude of a point whose [position] is an array of
    two numbers. *)
Definition position_of (e : Elem) : option (float * float) :=
  match e with
  | EVal v =>
      match get v "position" with
      | JArr [JNum x; JNum y] => Some (x, y)
      | _ => None
      end
  | ERef _ => None
  end.

(** A point whose [position] is an array of two numbers. *)
Definition numericPoint (e : Elem) : bool :=
  match position_of e with
  | Some _ => true
  | None => false
  end.

(** A point whose [position] is an array of two finite numbers: neither
    NaN nor an infinity, which [JSON.parse] yields for a literal beyond
    the range of the format, such as [1e999]. *)
Definition finitePoint (e : Elem) : bool :=
  match position_of e with
  | Some (x, y) => is_finite x && is_finite y
  | None => false
  end.

(** A point whose sort key, [time] or else [position[0]], has a
    primitive value, so that the comparator can subtract it. *)
Definition sortable (e : Elem) : bool :=
  match sortKey e with
  | Some k => convertible k
  | None => false
  end.

(** Two points at most 1 apart in longitude and in latitude. *)
Definition near (a b : Elem) : bool :=
  match position_of a, position_of b with
  | Some (ax, ay), Some (bx, by') =>
      (abs (bx - ax) <=? 1)%float && (abs (by' - ay) <=? 1)%float
  | _, _ => false
  end.

Fixpoint chained (line : list Elem) : bool :=
  match line with
  | a :: (b :: _) as rest => near a b && chained rest
  | _ => true
  end.

(** A line worth keeping: at least two points, each next to the one
    before it. *)
Definition goodLine (line : list Elem) : Prop :=
  2 <= length line /\ chained line = true.

(** *** A reference engine, to run the function *)

(** Stable insertion sort: [x] moves behind [y] only when the comparator
    is positive on [(x, y)]; NaN and zero keep the order. *)
Fixpoint insertBy (cmp : Elem -> Elem -> option float) (x : Elem)
    (l : list Elem) : option (list Elem) :=
  match l with
  | [] => Some [x]
  | y :: l' =>
      c ← cmp x y;
      if (0 <? c)%float then r ← insertBy cmp x l'; Some (y :: r)
      else Some (x :: l)
  end.

Fixpoint sortBy (cmp : Elem -> Elem -> option float) (l : list Elem)
    : option (list Elem) :=
  match l with
  | [] => Some []
  | x :: l' => s ← sortBy cmp l'; insertBy cmp x s
  end.

(** SortCompare of ECMAScript: [undefined] elements go last and the
    comparator is not called on them. *)
Definition sortCompare (cmp : Elem -> Elem -> option float) (x y : Elem)
    : option float :=
  match x, y with
  | EVal JUndefined, EVal JUndefined => Some 0%float
  | EVal JUndefined, _ => Some 1%float
  | _, EVal JUndefined => Some (-1)%float
  | _, _ => cmp x y
  end.

(** StringToNumber, by exact integer arithmetic. *)
Module StringToNumber.
Import Stdlib.Strings.Ascii.

(** White space and line terminators, as far as a character of the model
    can be one. *)
Definition isWhiteSpace (c : ascii) : bool :=
  let n := nat_of_ascii c in
  ((9 <=? n) && (n <=? 13) || (n =? 32) || (n =? 160))%nat.

Fixpoint trimStart (l : list ascii) : list ascii :=
  match l with
  | c :: rest => if isWhiteSpace c then trimStart rest else l
  | [] => []
  end.

Definition trim (l : list ascii) : list ascii :=
  rev (trimStart (rev (trimStart l))).

(** The value of a digit in a base up to 16. *)
Definition digit (base : Z) (c : ascii) : option Z :=
  let n := Z.of_nat (nat_of_ascii c) in
  d ← (if (48 <=? n) && (n <=? 57) then Some (n - 48)
       else if (97 <=? n) && (n <=? 102) then Some (n - 87)
       else if (65 <=? n) && (n <=? 70) then Some (n - 55)
       else None)%Z;
  if (d <? base)%Z then Some d else None.

(** The number written by a list of digits, most significant first. *)
Fixpoint digits (base acc : Z) (l : list ascii) : option Z :=
  match l with
  | [] => Some acc
  | c :: rest => d ← digit base c; digits base (acc * base + d) rest
  end.

(** The longest prefix of decimal digits, and what follows it. *)
Fixpoint spanDigits (l : list ascii) : list ascii * list ascii :=
  match l with
  | c :: rest =>
      if digit 10 c is Some _ then
        let '(ds, rest) := spanDigits rest in (c :: ds, rest)
      else ([], l)
  | [] => ([], [])
  end.

Definition sign (l : list ascii) : bool * list ascii :=
  match l with
  | "+"%char :: rest => (false, rest)
  | "-"%char :: rest => (true, rest)
  | _ => (false, l)
  end.

(** The binary64 number nearest to the integer [n >= 0], ties to even. *)
Definition roundInteger (n : Z) : float :=
  SF2Prim (binary_normalize prec emax n 0 false).

(** The binary64 number nearest to [m * 10^e] for [m > 0], ties to even.
    Far outside the range of the format the result is known without
    computing the power; for a negative [e] the quotient is taken with 64
    bits more than the divisor has, and a last bit records whether the
    division left a remainder. *)
Definition roundDecimal (m e : Z) : float :=
  let lo := (Z.log2 m / 4)%Z in
  let hi := (Z.log2 m / 3 + 1)%Z in
  if (310 <? e + lo)%Z then infinity
  else if (e + hi <? -330)%Z then 0%float
  else if (0 <=? e)%Z then roundInteger (m * 10 ^ e)
  else
    let s := (64 - 4 * e)%Z in
    let n := (m * 2 ^ s)%Z in
    let d := (10 ^ (- e))%Z in
    let sticky := if (n mod d =? 0)%Z then 0%Z else 1%Z in
    SF2Prim (binary_normalize prec emax (2 * (n / d) + sticky) (- (s + 1)) false).

(** The exponent part of a decimal literal, which ends the literal. *)
Definition exponentPart (l : list ascii) : option Z :=
  match l with
  | [] => Some 0%Z
  | c :: rest =>
      if (c =? "e")%char || (c =? "E")%char then
        let '(neg, rest) := sign rest in
        let '(ds, rest) := spanDigits rest in
        match ds, rest with
        | _ :: _, [] => n ← digits 10 0 ds; Some (if neg : bool then - n else n)%Z
        | _, _ => None
        end
      else None
  end.

(** StrDecimalLiteral: a sign, then [Infinity] or digits with an optional
    fraction and an optional exponent. *)
Definition decimalLiteral (l : list ascii) : float :=
  let '(neg, l) := sign l in
  let signed (x : float) := if neg : bool then (- x)%float else x in
  if decide (l = String.list_ascii_of_string "Infinity") then signed infinity
  else
    let '(whole, l) := spanDigits l in
    let '(fraction, l) :=
      match l with
      | "."%char :: rest => spanDigits rest
      | _ => ([], l)
      end in
    match whole ++ fraction, exponentPart l with
    | _ :: _, Some e =>
        match digits 10 0 (whole ++ fraction) with
        | Some m =>
            signed (if (m =? 0)%Z then 0%float
                    else roundDecimal m (e - Z.of_nat (length fraction)))
        | None => nan
        end
    | _, _ => nan
    end.

(** NonDecimalIntegerLiteral: [0x], [0o] or [0b] and digits of that
    base, without a sign. *)
Definition integerLiteral (base : Z) (l : list ascii) : float :=
  match l, digits base 0 l with
  | _ :: _, Some n => roundInteger n
  | _, _ => nan
  end.

(** StringToNumber: the empty string and white space are 0, a numeric
    literal is its value rounded to the format, anything else is NaN. *)
Definition stringToNumber (s : string) : float :=
  match trim (String.list_ascii_of_string s) with
  | [] => 0%float
  | "0"%char :: c :: rest =>
      if (c =? "x")%char || (c =? "X")%char then integerLiteral 16 rest
      else if (c =? "o")%char || (c =? "O")%char then integerLiteral 8 rest
      else if (c =? "b")%char || (c =? "B")%char then integerLiteral 2 rest
      else decimalLiteral ("0"%char :: c :: rest)
  | l => decimalLiteral l
  end.

End StringToNumber.

(** ** Sample records

    Features as the backend sends them: a sounding id, a position, the
    XCO2 value, the quality flag and, in polygon mode, the footprint. *)

Definition corners : list JsVal :=
  [ JArr [JNum 10; JNum 20]; JArr [JNum 11; JNum 20];
    JArr [JNum 11; JNum 21]; JArr [JNum 10; JNum 21] ].

Definition sounding (xco2 quality : float) (vertices : list JsVal) : JsVal :=
  JObj [ ("sounding_id", JNum 2020010112000000);
         ("position", JArr [JNum 10.5; JNum 20.5]);
         ("xco2", JNum xco2);
         ("quality_flag", JNum quality);
         ("vertices", JArr vertices) ].

Definition goodSounding : JsVal := sounding 400.5 0 corners.
Definition highSounding : JsVal := sounding 431 0 corners.
Definition poorSounding : JsVal := sounding 410 1 corners.
Definition threeCornerSounding : JsVal := sounding 400.5 0 (take 3 corners).

(** A corner of a footprint: a longitude and a latitude, and possibly
    an altitude after them. *)
Definition isCorner (v : JsVal) : bool :=
  match v with
  | JArr (JNum _ :: JNum _ :: _) => true
  | _ => false
  end.

(** Vertices form a closed ring when each of them is a corner and there
    are at least three: the polygon layer joins each corner to the next
    and the last one to the first. *)
Definition closedRing (vs : list JsVal) : Prop :=
  3 <= length vs /\ Forall (fun v => isCorner v = true) vs.

(** A record with four numbers where the corners should be. *)
Definition flatSounding : JsVal :=
  sounding 400.5 0 [JNum 10; JNum 20; JNum 11; JNum 21].

(** Overwriting the quality flag of a record. *)
Definition withQualityFlag (q : JsVal) (d : JsVal) : JsVal :=
  match d with
  | JObj props => JObj (("quality_flag", q) :: props)
  | _ => d
  end.

(** A component showing one sounding, and a view near the north pole. *)
Definition shownState : AppState :=
  {| data := JArr [goodSounding]; error := None; viewMode := "point";
     isGlobeMode := true; startDate := ""; endDate := ""; console := [] |}.

Definition polarView : Viewport :=
  {| longitude := 100; latitude := 80; zoom := 2; getBounds := [] |}.

Definition failedToFetch : JsError := {| message := "Failed to fetch" |}.

(** A response body without [data], as an error reply of the backend. *)
Definition notFoundBody : JsVal := JObj [("detail", JStr "Not Found")].

Module DebounceSamples.
Import Debounce.

Definition pointDeps : FetchDeps :=
  {| d_isGlobeMode := false; d_viewMode := "point";
     d_startDate := ""; d_endDate := "" |}.

Definition polygonDeps : FetchDeps :=
  {| d_isGlobeMode := false; d_viewMode := "polygon";
     d_startDate := ""; d_endDate := "" |}.

(** A burst of changes of [fetchData]'s dependencies, each followed by a
    pause. *)
Definition burst (ds : list (FetchDeps * nat)) : list Event :=
  flat_map (fun '(d, pause) => [SetFetchDeps d; Elapse pause]) ds.

(** Every change of the burst is a change, and every pause is shorter
    than the debounce delay. *)
Fixpoint rapid (d0 : FetchDeps) (ds : list (FetchDeps * nat)) : Prop :=
  match ds with
  | [] => True
  | (d, pause) :: rest => d <> d0 /\ pause < 500 /\ rapid d rest
  end.

Definition lastDeps (d0 : FetchDeps) (ds : list (FetchDeps * nat)) : FetchDeps :=
  match last ds with
  | Some (d, _) => d
  | None => d0
  end.

End DebounceSamples.

(** Six soundings of two passes and two stray ones, in arrival order,
    stored as the array at location 0. *)
Definition track (lon lat : float) : Elem :=
  EVal (JObj [("position", JArr [JNum lon; JNum lat]); ("xco2", JNum 400)]).

Definition trackPoints : list Elem :=
  [ track 3 0; track 1 0; track 1.5 0.5; track 7 7; track 3.5 0.25; track 20 20 ].

Definition trackHeap : heap := {[ 0 := trackPoints ]}.

(** Two soundings whose longitude is beyond the range of the number
    format. *)
Definition farPoints : list Elem := [ track infinity 0; track infinity 0.5 ].

Definition farHeap : heap := {[ 0 := farPoints ]}.

(** Two soundings whose [time] is an object that cannot be made a
    number. *)
Definition timed (lon lat : float) : Elem :=
  EVal (JObj [ ("position", JArr [JNum lon; JNum lat]);
               ("time", JObj [("toString", JNum 1)]) ]).

Definition timedPoints : list Elem := [ timed 1 0; timed 1.5 0.5 ].

Definition timedHeap : heap := {[ 0 := timedPoints ]}.

(** Soundings whose coordinates are given as strings, as arrays and as
    [null]. *)
Definition located (lon lat : JsVal) : Elem :=
  EVal (JObj [("position", JArr [lon; lat])]).

Definition mixedPoints : list Elem :=
  [ located (JArr [JNum 1.5]) (JStr " 0.5 "); located (JStr "1") (JNum 0);
    located JNull (JStr "north"); located (JStr "0x10") (JNum 0) ].

Definition mixedHeap : heap := {[ 0 := mixedPoints ]}.

(** ** Event sequences of the debounce model *)

Module DebounceBursts.
Import Debounce.

(** A user action that changes a dependency of the debounce effect: new
    dependencies of [fetchData] (globe mode, view mode, dates), or the
    land-cover switch. *)
Inductive Change :=
| ChangeDeps (d : FetchDeps)
| ToggleLandCover.

(** The events of a sequence of changes, each followed by a pause;
    [lc] is [landCoverVisible] before the first of them. *)
Fixpoint changeEvents (lc : bool) (cs : list (Change * nat)) : list Event :=
  match cs with
  | [] => []
  | (ChangeDeps d, pause) :: rest =>
      SetFetchDeps d :: Elapse pause :: changeEvents lc rest
  | (ToggleLandCover, pause) :: rest =>
      SetLandCoverVisible (negb lc) :: Elapse pause :: changeEvents (negb lc) rest
  end.

(** Every [ChangeDeps] brings dependencies other than the current ones,
    and every pause is shorter than the debounce delay. *)
Fixpoint quick (d0 : FetchDeps) (cs : list (Change * nat)) : Prop :=
  match cs with
  | [] => True
  | (ChangeDeps d, pause) :: rest => d <> d0 /\ pause < 500 /\ quick d rest
  | (ToggleLandCover, pause) :: rest => pause < 500 /\ quick d0 rest
  end.

Fixpoint finalDeps (d0 : FetchDeps) (cs : list (Change * nat)) : FetchDeps :=
  match cs with
  | [] => d0
  | (ChangeDeps d, _) :: rest => finalDeps d rest
  | (ToggleLandCover, _) :: rest => finalDeps d0 rest
  end.

(** The time of the last change of a sequence that starts at [t]. *)
Fixpoint lastChangeAt (t : nat) (cs : list (Change * nat)) : nat :=
  match cs with
  | [] => t
  | [_] => t
  | (_, pause) :: rest => lastChangeAt (t + pause) rest
  end.

Definition isViewStateChange (ev : Event) : bool :=
  match ev with ViewStateChange => true | _ => false end.

Definition isDependencyChange (ev : Event) : bool :=
  match ev with SetFetchDeps _ | SetLandCoverVisible _ => true | _ => false end.

Definition pending (s : Sched) : nat :=
  match timer s with Some _ => 1 | None => 0 end.

End DebounceBursts.

(** ** Tooltips and sounding dates *)

(** [str.slice(from, to)] for [0 <= from <= to]. *)
Definition slice (from to : nat) (str : string) : string :=
  String.substring from (to - from) str.

Section Tooltip.
Context `{Formatter}.

(** [parseSoundingDate]: the first fourteen characters of the id, read as
    [YYYYMMDDhhmmss], or [null]. *)
Definition parseSoundingDate (sounding_id : JsVal) : option JsVal :=
  if negb (truthy sounding_id) then Some JNull
  else
    str ← toString sounding_id;
    if (String.length str <? 14)%nat then Some JNull
    else
      let year := slice 0 4 str in
      let month := slice 4 6 str in
      let day := slice 6 8 str in
      let hour := slice 8 10 str in
      let minute := slice 10 12 str in
      let second := slice 12 14 str in
      Some (JStr (year ++ "-" ++ month ++ "-" ++ day ++ " " ++
                  hour ++ ":" ++ minute ++ ":" ++ second)%string).

(** [v.toFixed(2)]: only a number has the method. *)
Definition toFixed2 (v : JsVal) : option string :=
  match v with
  | JNum x => Some (numberToFixed x 2)
  | _ => None
  end.

(** What [getTooltip] puts into its HTML template: the XCO2 value, the
    latitude ([position[1]]), the longitude ([position[0]]) and, when
    there is one, the date. *)
Record Tooltip := {
  xco2Text : string;
  latitudeText : string;
  longitudeText : string;
  dateLine : option string
}.

(** [getTooltip({object})]: [Some None] is the [null] returned when
    nothing is picked, [None] a TypeError. *)
Definition getTooltip (object : JsVal) : option (option Tooltip) :=
  if negb (truthy object) then Some None
  else
    date ← parseSoundingDate (get object "sounding_id");
    xco2 ← toFixed2 (get object "xco2");
    lat ← item (get object "position") 1 ≫= toFixed2;
    lon ← item (get object "position") 0 ≫= toFixed2;
    Some (Some {| xco2Text := xco2; latitudeText := lat; longitudeText := lon;
                  dateLine := match date with
                              | JStr d => if truthy date then Some d else None
                              | _ => None
                              end |}).

End Tooltip.

(** The date string without its five separators. *)
Definition dateDigits (date : string) : string :=
  (slice 0 4 date ++ slice 5 7 date ++ slice 8 10 date ++
   slice 11 13 date ++ slice 14 16 date ++ slice 17 19 date)%string.

(** *** A reference formatter, to run the examples

    Exact decimal printing of a number from its binary expansion
    [m * 2^e]: [toFixed] rounds the exact value to the nearest decimal,
    ties upwards, and [toString] prints the shortest digits that are read
    back as the same number, as ECMAScript prescribes. *)

(** The integer nearest to [m * 2^e * 10^digits], ties upwards. *)
Definition scaledRound (m e : Z) (digits : nat) : Z :=
  let n := (m * 10 ^ Z.of_nat digits)%Z in
  if (0 <=? e)%Z then (n * 2 ^ e)%Z
  else ((2 * n + 2 ^ (- e)) / 2 ^ (- e + 1))%Z.

Fixpoint zeros (n : nat) : string :=
  match n with
  | 0 => ""
  | S n => ("0" ++ zeros n)%string
  end.

(** The decimal digits of [n / 10^digits] for a natural [n]. *)
Definition fixedDigits (n : Z) (digits : nat) : string :=
  let ds := pretty n in
  let padded := (zeros (S digits - String.length ds) ++ ds)%string in
  let whole := String.length padded - digits in
  (String.substring 0 whole padded ++
   (if digits is 0 then "" else "." ++ String.substring whole digits padded))%string.

(** A positive number as a fraction of two positive integers. *)
Definition fraction (m : positive) (e : Z) : Z * Z :=
  if (0 <=? e)%Z then (Zpos m * 2 ^ e, 1)%Z else (Zpos m, 2 ^ (- e))%Z.

(** [p / q * 10^n] as a fraction. *)
Definition scale (x : Z * Z) (n : Z) : Z * Z :=
  let '(p, q) := x in
  if (0 <=? n)%Z then (p * 10 ^ n, q)%Z else (p, q * 10 ^ (- n))%Z.

(** The least [n], from [n] on, with [x < 10^n]. *)
Fixpoint magnitudeFrom (fuel : nat) (x : Z * Z) (n : Z) : Z :=
  match fuel with
  | 0 => n
  | S fuel =>
      let '(p, q) := scale x (- n) in
      if (p <? q)%Z then n else magnitudeFrom fuel x (n + 1)
  end.

Definition magnitude (x : Z * Z) : Z :=
  let '(p, q) := x in
  magnitudeFrom 8 x ((Z.log2 p - Z.log2 q) * 30103 / 100000 - 2).

(** Whether [s * 10^(n - k)] is read back as [x]. *)
Definition readsBack (x : float) (s n k : Z) : bool :=
  (0 <? s)%Z && (StringToNumber.roundDecimal s (n - k) =? x)%float.

(** The shortest digits [s], [k] of them, with [s * 10^(n - k)] read back
    as [x]; of two candidates the nearer to [x], the even one on a tie. *)
Fixpoint shortest (fuel : nat) (x : float) (v : Z * Z) (n k : Z) : Z * Z :=
  let '(p, q) := scale v (k - n) in
  let below := (p / q)%Z in
  let r := (p mod q)%Z in
  let above := (below + 1)%Z in
  let nearer :=
    if (2 * r <? q)%Z then below
    else if (q <? 2 * r)%Z then above
    else if Z.even below then below else above in
  let other := if (nearer =? below)%Z then above else below in
  if readsBack x nearer n k then (nearer, k)
  else if readsBack x other n k then (other, k)
  else match fuel with
       | 0 => (nearer, k)
       | S fuel => shortest fuel x v n (k + 1)
       end.

Definition exponent (e : Z) : string :=
  ("e" ++ (if (0 <=? e)%Z then "+" else "-") ++ pretty (Z.abs e))%string.

(** Number::toString of a positive finite number [m * 2^e]. *)
Definition positiveToString (x : float) (m : positive) (e : Z) : string :=
  let v := fraction m e in
  let n0 := magnitude v in
  let '(s0, k0) := shortest 17 x v n0 1 in
  let '(s, k, n) :=
    if (s0 =? 10 ^ k0)%Z then (1, 1, n0 + 1)%Z else (s0, k0, n0) in
  let ds := pretty s in
  if (k <=? n)%Z && (n <=? 21)%Z then (ds ++ zeros (Z.to_nat (n - k)))%string
  else if (0 <? n)%Z && (n <=? 21)%Z then
    (String.substring 0 (Z.to_nat n) ds ++ "." ++
     String.substring (Z.to_nat n) (Z.to_nat (k - n)) ds)%string
  else if (-6 <? n)%Z && (n <=? 0)%Z then
    ("0." ++ zeros (Z.to_nat (- n)) ++ ds)%string
  else if (k =? 1)%Z then (ds ++ exponent (n - 1))%string
  else (String.substring 0 1 ds ++ "." ++
        String.substring 1 (Z.to_nat (k - 1)) ds ++ exponent (n - 1))%string.

(** Number::toString, radix 10. *)
Definition shortestToString (x : float) : string :=
  match Prim2SF x with
  | S754_nan => "NaN"
  | S754_infinity s => if s then "-Infinity" else "Infinity"
  | S754_zero _ => "0"
  | S754_finite s m e =>
      ((if s then "-" else "") ++ positiveToString (abs x) m e)%string
  end.

(** [x.toFixed(digits)]; from 10^21 on it is [toString]. *)
Definition toFixedExact (x : float) (digits : nat) : string :=
  match Prim2SF x with
  | S754_nan => "NaN"
  | S754_infinity s => if s then "-Infinity" else "Infinity"
  | S754_zero _ => fixedDigits 0 digits
  | S754_finite s m e =>
      ((if s then "-" else "") ++
       (if (abs x <? 1e21)%float
        then fixedDigits (scaledRound (Zpos m) e digits) digits
        else positiveToString (abs x) m e))%string
  end.

Definition exactFormatter : Formatter :=
  {| numberToString := shortestToString; numberToFixed := toFixedExact |}.

(** ** Base maps *)

(** The table [mapStyles]. *)
Definition mapStyles : JsVal :=
  JObj [ ("Satellite",
          JObj [ ("labeled", JStr "mapbox://styles/mapbox/satellite-streets-v12");
                 ("unlabeled", JStr "mapbox://styles/mapbox/satellite-v9") ]);
         ("Light",
          JObj [ ("labeled", JStr "mapbox://styles/mapbox/light-v11");
                 ("unlabeled", JStr "mapbox://styles/mapbox/light-v11") ]);
         ("Dark",
          JObj [ ("labeled", JStr "mapbox://styles/mapbox/dark-v11");
                 ("unlabeled", JStr "mapbox://styles/mapbox/dark-v11") ]) ].

(** [getCurrentMapStyle]: [mapStyles[currentBaseMap][showLabels ?
    'labeled' : 'unlabeled']]; [None] is the TypeError of reading a style
    of a base map the table does not have. Names that every object
    inherits are not in the table and are not modelled. *)
Definition getCurrentMapStyle (currentBaseMap : string) (showLabels : bool)
    : option JsVal :=
  prop (get mapStyles currentBaseMap)
    (if showLabels then "labeled" else "unlabeled").

(** The base maps of the three radio buttons. *)
Definition baseMaps : list string := ["Satellite"; "Light"; "Dark"].

(** The condition under which the sidebar shows the "Show Labels" switch. *)
Definition labelsSwitchVisible (currentBaseMap : string) : bool :=
  String.eqb currentBaseMap "Satellite".

(** ** The layer list *)

(** A point whose [position] is neither [undefined] nor [null], so
    that [position[0]] and [position[1]] can be read. Records kept by
    [validData] are such. *)
Definition hasPosition (e : Elem) : bool :=
  match e with
  | EVal v =>
      match get v "position" with
      | JUndefined | JNull => false
      | _ => true
      end
  | ERef _ => false
  end.

(** A point that [createTrajectories] can place: it has a [position],
    the two coordinates it reads from it have a primitive value, and so
    has its [time] where that one is the sort key. Numbers, strings,
    booleans, [null] and missing coordinates are such, as are arrays of
    them. *)
Definition plottable (e : Elem) : bool :=
  hasPosition e &&
  match coordinate e 0, coordinate e 1 with
  | Some x, Some y => convertible x && convertible y
  | _, _ => false
  end &&
  sortable e.

(** The deck.gl layers the component creates, with the properties that
    depend on the state: the array each one draws and, for the points,
    the radius in metres and the largest radius in pixels. [depthTest]
    stands for the four parameters that all equal [isGlobeMode]. *)
Inductive Layer :=
| LineLayer (id : string) (data : loc)
| ScatterplotLayer (id : string) (data : loc) (getRadius : float)
    (radiusMaxPixels : nat) (depthTest : bool)
| PolygonLayer (id : string) (data : loc) (depthTest : bool).

Definition layerId (l : Layer) : string :=
  match l with
  | LineLayer id _ => id
  | ScatterplotLayer id _ _ _ _ => id
  | PolygonLayer id _ _ => id
  end.

(** The array a layer colours by [xco2]; the line layer has a fixed
    colour. *)
Definition colouredData (l : Layer) : option loc :=
  match l with
  | LineLayer _ _ => None
  | ScatterplotLayer _ data _ _ _ => Some data
  | PolygonLayer _ data _ => Some data
  end.

Section Layers.
Context `{Formatter} `{Engine}.

(** The [layers] memo. [validData] is the location of the array the
    [validData] memo returned in this render, [zoom] is [viewState.zoom]. *)
Definition layers (h : heap) (s : AppState) (validData : loc) (zoom : float)
    : option (list Layer * heap) :=
  if negb (truthy (data s)) || length_is (data s) 0 then Some ([], h)
  else
    '(lines, h) ←
      (if isGlobeMode s then
         '(trajectories, h) ← createTrajectories h validData;
         Some ([LineLayer "trajectories" trajectories], h)
       else Some ([], h));
    let points :=
      if String.eqb (viewMode s) "point" then
        [ScatterplotLayer "points" validData (getPointRadius zoom)
           (if isGlobeMode s then 15 else 10) (isGlobeMode s)]
      else [] in
    let polygons :=
      if String.eqb (viewMode s) "polygon" then
        [PolygonLayer "grid-cells" validData (isGlobeMode s)]
      else [] in
    Some (lines ++ points ++ polygons, h).

(** One render, as far as the layers go: the [validData] memo, whose
    result is a new array, then the [layers] memo. [None] is a TypeError
    thrown while rendering. *)
Definition renderLayers (h : heap) (s : AppState) (zoom : float)
    : option (list Layer * loc * heap) :=
  valid ← validData (data s) (viewMode s);
  let '(validLoc, h) := alloc h (EVal <$> valid) in
  '(ls, h) ← layers h s validLoc zoom;
  Some (ls, validLoc, h).

End Layers.

(** * Properties *)

(** ** Facts about binary64 comparison and rounding

    The primitive operations are specified by [SpecFloat]; the facts the
    proofs below need are derived from that specification. *)

Module FloatFacts.

Definition SFnan (x : spec_float) : bool :=
  match x with S754_nan => true | _ => false end.

Definition SFfinite (x : spec_float) : bool :=
  match x with S754_zero _ | S754_finite _ _ _ => true | _ => false end.

Lemma is_nan_spec x : is_nan x = SFnan (Prim2SF x).
Proof.
  unfold is_nan. rewrite FloatAxioms.eqb_spec. unfold SFeqb.
  destruct (Prim2SF x) as [s|s| |s m e]; simpl; try reflexivity;
    try (destruct s; reflexivity).
  destruct s; rewrite Z.compare_refl, Pos.compare_cont_refl; reflexivity.
Qed.

Lemma is_finite_spec x : is_finite x = SFfinite (Prim2SF x).
Proof.
  unfold is_finite, is_infinity.
  rewrite is_nan_spec, FloatAxioms.eqb_spec, abs_spec.
  destruct (Prim2SF x) as [s|s| |s m e]; reflexivity.
Qed.

Lemma SFcompare_antisym x y c :
  SFcompare x y = Some c -> SFcompare y x = Some (CompOpp c).
Proof.
  destruct x as [sx|sx| |sx mx ex], y as [sy|sy| |sy my ey]; simpl;
    try discriminate; intros [= <-];
    try (destruct sx; reflexivity); try (destruct sy; reflexivity);
    try (destruct sx, sy; reflexivity).
  destruct sx, sy; try reflexivity;
    rewrite (Z.compare_antisym ex ey);
    destruct (ex ?= ey)%Z; simpl; try reflexivity;
    rewrite (Pos.compare_cont_antisym mx my Eq); simpl;
    rewrite ?CompOpp_involutive; reflexivity.
Qed.

Lemma ltb_leb x y : (x <? y)%float = true -> (x <=? y)%float = true.
Proof.
  rewrite FloatAxioms.ltb_spec, FloatAxioms.leb_spec. unfold SFltb, SFleb.
  destruct (SFcompare _ _) as [[]|]; congruence.
Qed.

Lemma not_ltb_leb x y :
  is_nan x = false -> is_nan y = false ->
  (x <? y)%float = false -> (y <=? x)%float = true.
Proof.
  rewrite !is_nan_spec, FloatAxioms.ltb_spec, FloatAxioms.leb_spec.
  unfold SFltb, SFleb. intros Hx Hy.
  destruct (SFcompare (Prim2SF x) (Prim2SF y)) as [c|] eqn:Hc.
  - rewrite (SFcompare_antisym _ _ _ Hc). destruct c; simpl; congruence.
  - destruct (Prim2SF x), (Prim2SF y); simpl in *; discriminate.
Qed.

Lemma SFleb_trans x y z :
  SFleb x y = true -> SFleb y z = true -> SFleb x z = true.
Proof.
  unfold SFleb.
  destruct x as [sx|sx| |sx mx ex], y as [sy|sy| |sy my ey],
    z as [sz|sz| |sz mz ez]; simpl;
    try discriminate; try reflexivity;
    try (destruct sx; try discriminate; try reflexivity);
    try (destruct sy; try discriminate; try reflexivity);
    try (destruct sz; try discriminate; try reflexivity).
  all: rewrite ?Pos.compare_cont_spec; simpl;
    destruct (Z.compare_spec ex ey), (Z.compare_spec ey ez),
      (Z.compare_spec ex ez); try discriminate; try reflexivity; try lia;
    destruct (Pos.compare_spec mx my), (Pos.compare_spec my mz),
      (Pos.compare_spec mx mz); simpl; try discriminate; try reflexivity; lia.
Qed.

Lemma leb_trans x y z :
  (x <=? y)%float = true -> (y <=? z)%float = true -> (x <=? z)%float = true.
Proof. rewrite !FloatAxioms.leb_spec. apply SFleb_trans. Qed.

(** Rounding a mantissa that is not negative never yields NaN. *)
Lemma shr_1_nonneg mrs : (0 <= shr_m mrs)%Z -> (0 <= shr_m (shr_1 mrs))%Z.
Proof.
  destruct mrs as [m r s]; simpl.
  destruct m as [|[p|p|]|[p|p|]]; simpl; lia.
Qed.

Lemma iter_shr_1_nonneg p mrs :
  (0 <= shr_m mrs)%Z -> (0 <= shr_m (SpecFloat.iter_pos shr_1 p mrs))%Z.
Proof.
  revert mrs. induction p as [p IH|p IH|]; intros mrs Hm; simpl.
  - apply IH, IH, shr_1_nonneg, Hm.
  - apply IH, IH, Hm.
  - apply shr_1_nonneg, Hm.
Qed.

Lemma shr_fexp_nonneg m e l :
  (0 <= m)%Z -> (0 <= shr_m (fst (shr_fexp prec emax m e l)))%Z.
Proof.
  intros Hm. unfold shr_fexp, shr.
  assert (H0 : (0 <= shr_m (shr_record_of_loc m l))%Z)
    by (destruct l as [|[]]; exact Hm).
  destruct (_ - e)%Z; simpl; auto using iter_shr_1_nonneg.
Qed.

Lemma round_nearest_even_nonneg m l :
  (0 <= m)%Z -> (0 <= round_nearest_even m l)%Z.
Proof.
  intros Hm. unfold round_nearest_even.
  destruct l as [|[]]; try destruct (Z.even m); lia.
Qed.

Lemma binary_round_aux_not_nan s m e l :
  (0 <= m)%Z -> SFnan (binary_round_aux prec emax s m e l) = false.
Proof.
  intros Hm. unfold binary_round_aux.
  pose proof (shr_fexp_nonneg m e l Hm) as H1.
  destruct (shr_fexp prec emax m e l) as [mrs' e']; simpl in H1.
  pose proof (shr_fexp_nonneg _ e' loc_Exact
    (round_nearest_even_nonneg _ (loc_of_shr_record mrs') H1)) as H2.
  destruct (shr_fexp prec emax _ e' loc_Exact) as [mrs'' e'']; simpl in H2.
  destruct (shr_m mrs''); try lia; try reflexivity.
  destruct (_ <=? _)%Z; reflexivity.
Qed.

Lemma binary_normalize_not_nan m e sz :
  SFnan (binary_normalize prec emax m e sz) = false.
Proof.
  unfold binary_normalize, binary_round.
  destruct m; try reflexivity;
    destruct (shl_align _ _ _); apply binary_round_aux_not_nan; lia.
Qed.

(** A difference is NaN only for a NaN operand or for two infinities of
    the same sign; a sum only for a NaN operand or two infinities of
    opposite signs. *)
Lemma SFsub_nan x y :
  SFnan (SFsub prec emax x y) = true ->
  SFnan x = true \/ SFnan y = true \/ SFfinite x = false /\ SFfinite y = false.
Proof.
  destruct x as [sx|sx| |sx mx ex], y as [sy|sy| |sy my ey]; simpl; auto;
    try discriminate.
  - destruct sx, sy; discriminate.
  - rewrite binary_normalize_not_nan. discriminate.
Qed.

Lemma SFadd_nan x y :
  SFnan (SFadd prec emax x y) = true ->
  SFnan x = true \/ SFnan y = true \/ SFfinite x = false /\ SFfinite y = false.
Proof.
  destruct x as [sx|sx| |sx mx ex], y as [sy|sy| |sy my ey]; simpl; auto;
    try discriminate.
  - destruct sx, sy; discriminate.
  - rewrite binary_normalize_not_nan. discriminate.
Qed.

Lemma sub_not_nan x y :
  is_nan x = false -> is_finite y = true -> is_nan (x - y) = false.
Proof.
  rewrite is_finite_spec, !is_nan_spec, sub_spec. intros Hx Hy.
  destruct (SFnan (SF64sub _ _)) eqn:E; [|reflexivity].
  apply SFsub_nan in E as [E|[E|[_ E]]]; try congruence.
  destruct (Prim2SF y); discriminate.
Qed.

Lemma add_not_nan x y :
  is_nan x = false -> is_finite y = true -> is_nan (x + y) = false.
Proof.
  rewrite is_finite_spec, !is_nan_spec, add_spec. intros Hx Hy.
  destruct (SFnan (SF64add _ _)) eqn:E; [|reflexivity].
  apply SFadd_nan in E as [E|[E|[_ E]]]; try congruence.
  destruct (Prim2SF y); discriminate.
Qed.

Lemma is_finite_not_nan x : is_finite x = true -> is_nan x = false.
Proof.
  rewrite is_finite_spec, is_nan_spec. destruct (Prim2SF x); simpl; congruence.
Qed.

Lemma abs_is_nan x : is_nan (abs x) = is_nan x.
Proof. rewrite !is_nan_spec, abs_spec. destruct (Prim2SF x); reflexivity. Qed.

(** The test [Math.abs(b - a) > 1] fails on finite [a] and [b] exactly
    when they are at most 1 apart. *)
Lemma not_apart_finite a b :
  is_finite a = true -> is_finite b = true ->
  (1 <? abs (b - a))%float = false -> (abs (b - a) <=? 1)%float = true.
Proof.
  intros Ha Hb. apply not_ltb_leb; [reflexivity|].
  rewrite abs_is_nan. apply sub_not_nan; auto using is_finite_not_nan.
Qed.

(** Two numbers known to be different. *)
Lemma float_neq x y : (x =? y)%float = false -> is_nan x = false -> x <> y.
Proof.
  intros Hxy Hx ->. unfold is_nan in Hx. rewrite Hxy in Hx. discriminate.
Qed.

End FloatFacts.

(** ** The validity filter *)

Lemma validData_array (l : list JsVal) (viewMode : string) :
  validData (JArr l) viewMode = Some (List.filter (validFeature viewMode) l).
Proof.
  unfold validData. simpl. destruct l as [|d l]; reflexivity.
Qed.

Lemma validData_In (data : JsVal) (viewMode : string) (out : list JsVal) (d : JsVal) :
  validData data viewMode = Some out -> In d out -> validFeature viewMode d = true.
Proof.
  unfold validData. intros Hv Hd.
  destruct (negb (truthy data) || length_is data 0).
  - injection Hv as <-. destruct Hd.
  - destruct data; try discriminate. injection Hv as <-.
    apply filter_In in Hd. apply Hd.
Qed.

Lemma validFeature_xco2 (viewMode : string) (d : JsVal) :
  validFeature viewMode d = true ->
  exists v, get d "xco2" = JNum v /\
    (380 <=? v)%float = true /\ (v <=? 420)%float = true.
Proof.
  unfold validFeature, validPoint, validPolygon.
  destruct (String.eqb viewMode "point"); intros Hv;
    repeat (apply andb_prop in Hv as [Hv ?]);
    destruct (get d "xco2") as [| | |v| | |]; try discriminate;
    exists v; split; try reflexivity; apply andb_prop; assumption.
Qed.

(** C1: every feature in the output of [validData], whatever the view
    mode, has a number as [xco2], and that number [v] satisfies
    [380 <= v <= 420]; a record whose [xco2] is a number outside the range
    is not in the output. *)
Theorem validData_xco2_in_range (data : JsVal) (viewMode : string) (out : list JsVal) :
  validData data viewMode = Some out ->
  (forall d, In d out ->
     exists v, get d "xco2" = JNum v /\
       (380 <=? v)%float = true /\ (v <=? 420)%float = true) /\
  (forall d v, get d "xco2" = JNum v ->
     (380 <=? v)%float && (v <=? 420)%float = false -> ~ In d out).
Proof.
  intros Hv. split.
  - intros d Hd. eapply validFeature_xco2, validData_In; eassumption.
  - intros d v Hx Hr Hd.
    destruct (validFeature_xco2 viewMode d) as (v' & Hx' & H1 & H2).
    { eapply validData_In; eassumption. }
    rewrite Hx in Hx'. injection Hx' as <-.
    rewrite H1, H2 in Hr. discriminate.
Qed.

Lemma validData_xco2_in_range_witness :
  (forall d, In d [goodSounding] ->
     exists v, get d "xco2" = JNum v /\
       (380 <=? v)%float = true /\ (v <=? 420)%float = true) /\
  (forall d v, get d "xco2" = JNum v ->
     (380 <=? v)%float && (v <=? 420)%float = false -> ~ In d [goodSounding]).
Proof.
  apply (validData_xco2_in_range (JArr [goodSounding; highSounding]) "point").
  reflexivity.
Defined.

(** C2, as amended: in polygon mode (any view mode other than ["point"])
    every feature in the output has an array of exactly four elements as
    [vertices]. Nothing is checked about the elements, so nothing is
    promised about the ring they form. *)
Theorem validData_polygon_four_vertices (data : JsVal) (viewMode : string)
    (out : list JsVal) (d : JsVal) :
  viewMode <> "point" ->
  validData data viewMode = Some out -> In d out ->
  exists vs, get d "vertices" = JArr vs /\ length vs = 4.
Proof.
  intros Hm Hv Hd. pose proof (validData_In _ _ _ _ Hv Hd) as Hf.
  unfold validFeature in Hf.
  destruct (String.eqb_spec viewMode "point") as [->|_]; [contradiction|].
  unfold validPolygon in Hf. repeat (apply andb_prop in Hf as [Hf ?]).
  destruct (get d "vertices") as [| | | | |vs|]; try discriminate.
  exists vs. split; [reflexivity|]. simpl in *. apply Nat.eqb_eq. assumption.
Qed.

Lemma validData_polygon_four_vertices_witness :
  exists vs, get goodSounding "vertices" = JArr vs /\ length vs = 4.
Proof.
  apply (validData_polygon_four_vertices
           (JArr [goodSounding; threeCornerSounding]) "polygon" [goodSounding]).
  - discriminate.
  - reflexivity.
  - left. reflexivity.
Defined.

(** C2, counterexample: a record whose [vertices] are four numbers,
    where four corners should be, passes the polygon filter; its
    vertices are no corners, so they form no ring. *)
Lemma polygon_vertices_unchecked :
  validData (JArr [flatSounding]) "polygon" = Some [flatSounding] /\
  get flatSounding "vertices" = JArr [JNum 10; JNum 20; JNum 11; JNum 21] /\
  ~ closedRing [JNum 10; JNum 20; JNum 11; JNum 21].
Proof.
  split; [reflexivity|]. split; [reflexivity|].
  intros [_ Hcorners]. apply Forall_inv in Hcorners. discriminate Hcorners.
Qed.

(** A footprint given by its four corners does form a ring. *)
Example corners_closedRing :
  get goodSounding "vertices" = JArr corners /\ closedRing corners.
Proof.
  split; [reflexivity|]. split; [simpl; lia|]. repeat constructor.
Qed.

Lemma withQualityFlag_get (q : JsVal) (props : list (string * JsVal)) :
  get (withQualityFlag q (JObj props)) "quality_flag" = q.
Proof. reflexivity. Qed.

Lemma validFeature_withQualityFlag (viewMode : string) (q d : JsVal) :
  validFeature viewMode (withQualityFlag q d) = validFeature viewMode d.
Proof.
  destruct d; try reflexivity.
Qed.

(** C3, as amended: the filter does not read [quality_flag]. Overwriting
    the flag of every record of the input, by any value, changes nothing
    in which records are kept, in any view mode: the output is the old
    output with the flags overwritten. *)
Theorem validData_ignores_quality_flag (l : list JsVal) (viewMode : string) (q : JsVal) :
  validData (JArr (map (withQualityFlag q) l)) viewMode =
  map (withQualityFlag q) <$> validData (JArr l) viewMode.
Proof.
  rewrite !validData_array. simpl. f_equal.
  induction l as [|d l IH]; [reflexivity|]. simpl.
  rewrite validFeature_withQualityFlag.
  destruct (validFeature viewMode d); simpl; rewrite IH; reflexivity.
Qed.

(** C3, counterexample: a record with [quality_flag = 1] is in the output
    in point mode and in polygon mode. *)
Lemma poor_quality_passes_filter :
  get poorSounding "quality_flag" = JNum 1 /\
  validData (JArr [poorSounding]) "point" = Some [poorSounding] /\
  validData (JArr [poorSounding]) "polygon" = Some [poorSounding].
Proof. repeat split. Qed.

(** C4: a record with a two-element [position], an [xco2] in
    [380, 420] and fewer than four [vertices] is kept in point mode and
    dropped in polygon mode. *)
Theorem validData_short_footprint (l : list JsVal) (d : JsVal)
    (p vs : list JsVal) (v : float) :
  In d l ->
  get d "position" = JArr p -> length p = 2 ->
  get d "xco2" = JNum v ->
  (380 <=? v)%float = true -> (v <=? 420)%float = true ->
  get d "vertices" = JArr vs -> length vs < 4 ->
  (exists out, validData (JArr l) "point" = Some out /\ In d out) /\
  (exists out, validData (JArr l) "polygon" = Some out /\ ~ In d out).
Proof.
  intros Hd Hp Hlen Hx H1 H2 Hvs Hshort.
  assert (Ht : truthy d = true).
  { destruct d; simpl in Hp; try discriminate; reflexivity. }
  rewrite !validData_array. split; eexists; (split; [reflexivity|]).
  - apply filter_In. split; [assumption|].
    unfold validFeature, validPoint. simpl.
    rewrite Ht, Hp, Hx, H1, H2. simpl. rewrite Hlen. reflexivity.
  - intros Hin. apply filter_In in Hin as [_ Hf].
    unfold validFeature, validPolygon in Hf. simpl in Hf.
    rewrite Hvs in Hf. simpl in Hf.
    destruct (Nat.eqb_spec (length vs) 4) as [E|_]; [lia|].
    rewrite !andb_false_r in Hf. discriminate.
Qed.

Lemma validData_short_footprint_witness :
  (exists out, validData (JArr [goodSounding; threeCornerSounding]) "point" = Some out /\
     In threeCornerSounding out) /\
  (exists out, validData (JArr [goodSounding; threeCornerSounding]) "polygon" = Some out /\
     ~ In threeCornerSounding out).
Proof.
  apply (validData_short_footprint [goodSounding; threeCornerSounding]
           threeCornerSounding [JNum 10.5; JNum 20.5] (take 3 corners) 400.5).
  - right. left. reflexivity.
  - reflexivity.
  - reflexivity.
  - reflexivity.
  - reflexivity.
  - reflexivity.
  - reflexivity.
  - simpl. lia.
Defined.

(** ** The point radius *)

(** C5: the radius is 100 km for a zoom of at most 3, 75 km for a zoom
    from 4 to 5 and 50 km for a zoom of at least 6, in metres. *)
Theorem getPointRadius_buckets (z : float) :
  ((z <=? 3)%float = true -> getPointRadius z = 100000%float) /\
  ((4 <=? z)%float = true -> (z <=? 5)%float = true ->
     getPointRadius z = 75000%float) /\
  ((6 <=? z)%float = true -> getPointRadius z = 50000%float).
Proof.
  unfold getPointRadius. repeat split.
  - intros ->. reflexivity.
  - intros H4 H5. rewrite H5.
    destruct (z <=? 3)%float eqn:H3; [|reflexivity].
    pose proof (FloatFacts.leb_trans _ _ _ H4 H3) as Hc. discriminate Hc.
  - intros H6.
    destruct (z <=? 3)%float eqn:H3.
    { pose proof (FloatFacts.leb_trans _ _ _ H6 H3) as Hc. discriminate Hc. }
    destruct (z <=? 5)%float eqn:H5; [|reflexivity].
    pose proof (FloatFacts.leb_trans _ _ _ H6 H5) as Hc. discriminate Hc.
Qed.

Example getPointRadius_samples :
  getPointRadius 2 = 100000%float /\ getPointRadius 3 = 100000%float /\
  getPointRadius 3.5 = 75000%float /\ getPointRadius 5 = 75000%float /\
  getPointRadius 5.5 = 50000%float /\ getPointRadius 6 = 50000%float /\
  getPointRadius 14 = 50000%float.
Proof. repeat split. Qed.

(** ** [fetchData] *)

(** C6, as amended: when the response is a JSON value other than [null]
    that has no [data], [fetchData] logs a console error and returns.
    Nothing is thrown, the error indicator is not set, and the [data]
    state, hence what is displayed, is left as it was. *)
Theorem fetchData_missing_data (net : option Query -> Response)
    (viewport : option Viewport) (s : AppState) (result : JsVal) :
  net (buildRequest s viewport) = Json result ->
  prop result "data" = Some JUndefined ->
  fetchData net viewport s = consoleError (NoDataProperty result) s /\
  data (fetchData net viewport s) = data s /\
  error (fetchData net viewport s) = error s.
Proof.
  intros Hnet Hprop. unfold fetchData. rewrite Hnet, Hprop. simpl.
  repeat split.
Qed.

Lemma fetchData_missing_data_witness :
  fetchData (fun _ => Json notFoundBody) (Some polarView) shownState =
    consoleError (NoDataProperty notFoundBody) shownState /\
  data (fetchData (fun _ => Json notFoundBody) (Some polarView) shownState) =
    data shownState /\
  error (fetchData (fun _ => Json notFoundBody) (Some polarView) shownState) =
    error shownState.
Proof.
  apply (fetchData_missing_data (fun _ => Json notFoundBody) (Some polarView)
           shownState notFoundBody); reflexivity.
Defined.

(** C6, counterexample: a component that shows one sounding receives a
    body without [data]; afterwards it still holds and displays that
    sounding, so the displayed dataset has not become empty. *)
Lemma missing_data_keeps_dataset :
  get notFoundBody "data" = JUndefined /\
  data (fetchData (fun _ => Json notFoundBody) (Some polarView) shownState) =
    JArr [goodSounding] /\
  validData
    (data (fetchData (fun _ => Json notFoundBody) (Some polarView) shownState))
    "point" = Some [goodSounding].
Proof. repeat split. Qed.

(** C7: when the fetch is rejected, the error is caught: it is logged
    with [console.error], its message becomes the [error] state shown on
    screen, and the [data] state is left unchanged. *)
Theorem fetchData_network_error (net : option Query -> Response)
    (viewport : option Viewport) (s : AppState) (e : JsError) :
  net (buildRequest s viewport) = NetworkError e ->
  data (fetchData net viewport s) = data s /\
  error (fetchData net viewport s) = Some (message e) /\
  console (fetchData net viewport s) = console s ++ [ErrorFetchingData e].
Proof.
  intros Hnet. unfold fetchData. rewrite Hnet. repeat split.
Qed.

Lemma fetchData_network_error_witness :
  data (fetchData (fun _ => NetworkError failedToFetch) (Some polarView) shownState) =
    data shownState /\
  error (fetchData (fun _ => NetworkError failedToFetch) (Some polarView) shownState) =
    Some (message failedToFetch) /\
  console (fetchData (fun _ => NetworkError failedToFetch) (Some polarView) shownState) =
    console shownState ++ [ErrorFetchingData failedToFetch].
Proof.
  apply (fetchData_network_error (fun _ => NetworkError failedToFetch)
           (Some polarView) shownState failedToFetch).
  reflexivity.
Defined.

(** ** Globe bounds *)

Lemma leb_refl a : is_nan a = false -> (a <=? a)%float = true.
Proof.
  unfold is_nan. rewrite FloatAxioms.eqb_spec, FloatAxioms.leb_spec.
  unfold SFeqb, SFleb.
  destruct (SFcompare _ _) as [[]|]; simpl; congruence.
Qed.

Lemma math_max_lower a b :
  is_nan a = false -> is_nan b = false -> (a <=? math_max a b)%float = true.
Proof.
  intros Ha Hb. unfold math_max. rewrite Ha, Hb. simpl.
  destruct (a <? b)%float eqn:E1; [apply FloatFacts.ltb_leb, E1|].
  destruct (b <? a)%float eqn:E2; [apply leb_refl, Ha|].
  destruct (is_neg_zero a).
  - apply FloatFacts.not_ltb_leb; assumption.
  - apply leb_refl, Ha.
Qed.

Lemma math_min_upper a b :
  is_nan a = false -> is_nan b = false -> (math_min a b <=? a)%float = true.
Proof.
  intros Ha Hb. unfold math_min. rewrite Ha, Hb. simpl.
  destruct (a <? b)%float eqn:E1; [apply leb_refl, Ha|].
  destruct (b <? a)%float eqn:E2; [apply FloatFacts.ltb_leb, E2|].
  destruct (is_neg_zero a).
  - apply leb_refl, Ha.
  - apply FloatFacts.not_ltb_leb; assumption.
Qed.

(** C10: in globe mode, for a viewport whose latitude is a number, the
    bounds of the request are
    [centre longitude - 90, minLat, centre longitude + 90, maxLat] with
    [-90 <= minLat] and [maxLat <= 90]. *)
Theorem globe_bounds_clamped (s : AppState) (vp : Viewport) (q : Query) :
  isGlobeMode s = true ->
  is_nan (latitude vp) = false ->
  buildRequest s (Some vp) = Some q ->
  exists minLat maxLat,
    q_bounds q = [ (longitude vp - 90)%float; minLat;
                   (longitude vp + 90)%float; maxLat ] /\
    (-90 <=? minLat)%float = true /\ (maxLat <=? 90)%float = true.
Proof.
  intros Hg Hlat Hq. unfold buildRequest in Hq. rewrite Hg in Hq.
  injection Hq as <-. simpl. unfold globeBounds.
  eexists _, _. split; [reflexivity|]. split.
  - apply math_max_lower; [reflexivity|].
    apply FloatFacts.sub_not_nan; [assumption|reflexivity].
  - apply math_min_upper; [reflexivity|].
    apply FloatFacts.add_not_nan; [assumption|reflexivity].
Qed.

Lemma globe_bounds_clamped_witness :
  exists minLat maxLat,
    [ (100 - 90)%float; math_max (-90) (80 - 45); (100 + 90)%float;
      math_min 90 (80 + 45) ] =
    [ (100 - 90)%float; minLat; (100 + 90)%float; maxLat ] /\
    (-90 <=? minLat)%float = true /\ (maxLat <=? 90)%float = true.
Proof.
  apply (globe_bounds_clamped shownState polarView
           {| q_bounds := globeBounds polarView; q_zoom := 2;
              q_view_mode := "point"; q_start_date := None;
              q_end_date := None |});
    reflexivity.
Defined.

(** ** Debounce *)

Module DebounceFacts.
Import Debounce DebounceSamples.

Lemma run_app s evs evs' : run s (evs ++ evs') = run (run s evs) evs'.
Proof. apply fold_left_app. Qed.

Lemma step_change (s : Sched) (d : FetchDeps) :
  d <> deps s ->
  step s (SetFetchDeps d) = rerunEffect d (landCoverVisible s) s.
Proof. intros Hd. simpl. destruct (decide (d = deps s)); [contradiction|reflexivity]. Qed.

Lemma step_elapse_pending (s : Sched) (t ms : nat) (d : FetchDeps) :
  timer s = Some (t, d) -> clock s + ms < t ->
  step s (Elapse ms) =
    {| clock := clock s + ms; deps := deps s;
       landCoverVisible := landCoverVisible s; deckReady := deckReady s;
       timer := timer s; calls := calls s |}.
Proof.
  intros Ht Hlt. simpl. rewrite Ht.
  destruct (Nat.leb_spec t (clock s + ms)); [lia|reflexivity].
Qed.

(** Every viewport change on a mounted deck calls [fetchData] at once,
    and leaves the debounce timer as it is. *)
Lemma view_change_fetches (s : Sched) :
  deckReady s = true ->
  calls (step s ViewStateChange) = calls s ++ [(clock s, deps s)] /\
  timer (step s ViewStateChange) = timer s.
Proof.
  intros Hd. simpl. unfold handleViewStateChange. rewrite Hd.
  split; reflexivity.
Qed.

Lemma lastDeps_cons (d0 d : FetchDeps) (pause : nat) (ds : list (FetchDeps * nat)) :
  lastDeps d0 ((d, pause) :: ds) = lastDeps d ds.
Proof.
  unfold lastDeps. rewrite last_cons. destruct (last ds) as [[]|]; reflexivity.
Qed.

(** A burst of rapid dependency changes issues no fetch and leaves the
    timer armed for the last of them. *)
Lemma rapid_burst_armed (ds : list (FetchDeps * nat)) (s : Sched) :
  rapid (deps s) ds ->
  (exists t, timer s = Some (t, deps s) /\ clock s < t <= clock s + 500) ->
  calls (run s (burst ds)) = calls s /\
  deps (run s (burst ds)) = lastDeps (deps s) ds /\
  exists t, timer (run s (burst ds)) = Some (t, lastDeps (deps s) ds) /\
    clock (run s (burst ds)) < t <= clock (run s (burst ds)) + 500.
Proof.
  revert s. induction ds as [|[d pause] ds IH]; intros s Hr Ht.
  - simpl. auto.
  - destruct Hr as (Hd & Hp & Hr).
    change (run s (burst ((d, pause) :: ds)))
      with (run (step (step s (SetFetchDeps d)) (Elapse pause)) (burst ds)).
    rewrite (step_change s d Hd).
    rewrite (step_elapse_pending _ (clock s + 500) pause d);
      [|reflexivity|simpl; lia].
    rewrite lastDeps_cons.
    match goal with |- context [run ?s' _] => specialize (IH s') end.
    apply IH; simpl.
    + assumption.
    + exists (clock s + 500). split; [reflexivity|lia].
Qed.

(** After a burst of rapid dependency changes and a pause of the debounce
    delay, exactly one fetch has been issued, the one of the last
    dependencies. *)
Lemma rapid_changes_coalesced (d0 : FetchDeps) (deck : bool)
    (ds : list (FetchDeps * nat)) :
  rapid d0 ds ->
  exists t, calls (run (mount d0 deck) (burst ds ++ [Elapse 500])) =
            [(t, lastDeps d0 ds)].
Proof.
  intros Hr. rewrite run_app.
  destruct (rapid_burst_armed ds (mount d0 deck)) as (Hc & Hd & t & Ht & Hlt).
  - exact Hr.
  - exists 500. split; [reflexivity|simpl; lia].
  - simpl in *. unfold step. rewrite Ht.
    destruct (Nat.leb_spec t (clock (run (mount d0 deck) (burst ds)) + 500)); [|lia].
    simpl. rewrite Hc. simpl. eauto.
Qed.

(** Three changes of the view mode within 300 ms: one fetch, 500 ms after
    the last change, for the view mode chosen last. *)
Example view_mode_burst :
  calls (run (mount pointDeps true)
           (burst [(polygonDeps, 100); (pointDeps, 200); (polygonDeps, 50)]
            ++ [Elapse 500])) =
  [(800, polygonDeps)].
Proof. reflexivity. Qed.

End DebounceFacts.

(** C8: viewport changes are not coalesced. Three viewport changes
    100 ms apart, on a mounted component whose deck exists, issue three
    fetches, one at the time of each change, where a debounce of 500 ms
    would issue a single one after the last change. *)
Theorem viewport_changes_not_coalesced (d : Debounce.FetchDeps) :
  Debounce.calls
    (Debounce.run (Debounce.mount d true)
       [ Debounce.ViewStateChange; Debounce.Elapse 100;
         Debounce.ViewStateChange; Debounce.Elapse 100;
         Debounce.ViewStateChange ]) =
  [ (0, d); (100, d); (200, d) ].
Proof. reflexivity. Qed.

(** ** [createTrajectories] *)

(** *** The reference engine *)

Lemma insertBy_permutes (cmp : Elem -> Elem -> option float) (x : Elem)
    (l r : list Elem) :
  insertBy cmp x l = Some r -> r ≡ₚ x :: l.
Proof.
  revert r. induction l as [|y l IH]; intros r; simpl.
  - intros [= <-]. reflexivity.
  - destruct (cmp x y) as [c|]; [|discriminate]. simpl.
    destruct (0 <? c)%float.
    + destruct (insertBy cmp x l) as [r'|]; [|discriminate]. simpl.
      intros [= <-]. rewrite (IH r' eq_refl). apply Permutation_swap.
    + intros [= <-]. reflexivity.
Qed.

Lemma sortBy_permutes (cmp : Elem -> Elem -> option float) (l r : list Elem) :
  sortBy cmp l = Some r -> r ≡ₚ l.
Proof.
  revert r. induction l as [|x l IH]; intros r; simpl.
  - intros [= <-]. reflexivity.
  - destruct (sortBy cmp l) as [s|]; [|discriminate]. simpl. intros Hr.
    rewrite (insertBy_permutes _ _ _ _ Hr), (IH s eq_refl). reflexivity.
Qed.

Lemma insertBy_returns (cmp : Elem -> Elem -> option float) (x : Elem) (l : list Elem) :
  (forall b, b ∈ l -> is_Some (cmp x b)) -> is_Some (insertBy cmp x l).
Proof.
  induction l as [|y l IH]; intros Hcmp; simpl.
  - eauto.
  - destruct (Hcmp y) as [c Hc]; [left|]. rewrite Hc. simpl.
    destruct (0 <? c)%float; [|eauto].
    destruct IH as [r ->]; [|simpl; eauto].
    intros b Hb. apply Hcmp. right. exact Hb.
Qed.

Lemma sortBy_returns (cmp : Elem -> Elem -> option float) (l : list Elem) :
  (forall a b, a ∈ l -> b ∈ l -> is_Some (cmp a b)) -> is_Some (sortBy cmp l).
Proof.
  induction l as [|x l IH]; intros Hcmp; simpl.
  - eauto.
  - destruct IH as [s Hs].
    { intros a b Ha Hb. apply Hcmp; right; assumption. }
    rewrite Hs. simpl. apply insertBy_returns.
    intros b Hb. apply Hcmp; [left|right].
    rewrite <- (sortBy_permutes _ _ _ Hs). exact Hb.
Qed.

Lemma sortCompare_total (cmp : Elem -> Elem -> option float) (l : list Elem) :
  (forall a b, a ∈ l -> b ∈ l -> is_Some (cmp a b)) ->
  forall a b, a ∈ l -> b ∈ l -> is_Some (sortCompare cmp a b).
Proof.
  intros Hcmp a b Ha Hb. specialize (Hcmp a b Ha Hb). unfold sortCompare.
  destruct a as [[]|], b as [[]|]; eauto.
Qed.

#[global] Instance referenceEngine : Engine := {|
  string_to_number := StringToNumber.stringToNumber;
  array_sort := fun cmp => sortBy (sortCompare cmp);
  array_sort_permutes := fun cmp xs ys => sortBy_permutes (sortCompare cmp) xs ys;
  array_sort_returns := fun cmp xs Hcmp =>
    sortBy_returns (sortCompare cmp) xs (sortCompare_total cmp xs Hcmp)
|}.

(** *** Conversions *)

Lemma JsVal_array_ind (P : JsVal -> Prop) :
  (forall elems, Forall P elems -> P (JArr elems)) ->
  (forall v, isArray v = false -> P v) ->
  forall v, P v.
Proof.
  intros Harr Hother. fix IH 1. intros v.
  destruct v as [| | | | |elems|props]; try (apply Hother; reflexivity).
  apply Harr. induction elems as [|x rest IHrest]; constructor;
    [apply IH|exact IHrest].
Qed.

Lemma join_is_Some {A} (f : A -> option string) (l : list A) :
  is_Some ((fix join (l : list A) : option string :=
              match l with
              | [] => Some ""
              | x :: rest =>
                  first ← f x;
                  match rest with
                  | [] => Some first
                  | _ => others ← join rest; Some (first ++ "," ++ others)%string
                  end
              end) l) <->
  Forall (fun x => is_Some (f x)) l.
Proof.
  induction l as [|x rest IH].
  - split; [constructor|eauto].
  - rewrite Forall_cons, <- IH. clear IH.
    destruct (f x) as [first|] eqn:Ex.
    + destruct rest as [|y rest].
      * simpl. split; eauto.
      * simpl.
        match goal with
        | |- is_Some (?J ≫= _) <-> _ /\ is_Some ?J => generalize J
        end.
        intros [others|]; simpl.
        -- split; eauto.
        -- split; [intros Hn|intros [_ Hn]]; destruct (is_Some_None Hn).
    + simpl. split; [intros Hn|intros [Hn _]]; destruct (is_Some_None Hn).
Qed.

Section ConversionFacts.
Context `{Formatter}.

(** The conversion of a template literal throws exactly where the
    conversion to a primitive value does. *)
Lemma template_convertible (v : JsVal) :
  is_Some (template v) <-> convertible v = true.
Proof.
  induction v as [elems IH|v Hv] using JsVal_array_ind.
  - unfold template. simpl.
    rewrite (join_is_Some (fun x => match x with
                                    | JUndefined | JNull => Some ""
                                    | _ => toString x
                                    end)).
    induction IH as [|x rest Hx _ IHrest]; simpl.
    + split; [reflexivity|constructor].
    + rewrite Forall_cons, andb_true_iff, <- Hx, <- IHrest.
      apply and_iff_compat_r.
      destruct x; simpl; split; eauto.
  - destruct v as [| | [|] | | | |props]; simpl; try (split; eauto; fail);
      try discriminate.
    destruct (own props "toString"); split; eauto; try discriminate;
      intros Hn; destruct (is_Some_None Hn).
Qed.

Context `{Engine}.

(** ToNumber throws exactly where the conversion to a primitive value
    does. *)
Lemma to_number_convertible (v : JsVal) :
  is_Some (to_number v) <-> convertible v = true.
Proof.
  rewrite <- template_convertible.
  destruct v as [| | [|] | | |elems|props]; try (split; eauto; fail);
    unfold to_number, template;
    (destruct (toString _) as [s|]; simpl; split; eauto;
     intros Hn; destruct (is_Some_None Hn)).
Qed.

Lemma subtract_convertible (a b : JsVal) :
  convertible a = true -> convertible b = true -> is_Some (subtract a b).
Proof.
  intros Ha Hb. apply to_number_convertible in Ha as [x Hx].
  apply to_number_convertible in Hb as [y Hy].
  unfold subtract. rewrite Hx, Hy. simpl. eauto.
Qed.

Lemma byTime_sortable (a b : Elem) :
  sortable a = true -> sortable b = true -> is_Some (byTime a b).
Proof.
  unfold sortable, byTime. intros Ha Hb.
  destruct (sortKey a) as [ka|]; [|discriminate].
  destruct (sortKey b) as [kb|]; [|discriminate].
  simpl. apply subtract_convertible; assumption.
Qed.

End ConversionFacts.

(** *** The loop keeps its invariant *)

Lemma position_of_inv (e : Elem) (x y : float) :
  position_of e = Some (x, y) ->
  exists props, e = EVal (JObj props) /\
    own props "position" = JArr [JNum x; JNum y].
Proof.
  unfold position_of. destruct e as [v|]; [|discriminate].
  destruct v as [| | | | |l|props]; simpl; try discriminate.
  destruct (own props "position") as [| | | | |l|] eqn:E; try discriminate.
  destruct l as [|[| | |x'| | |] [|[| | |y'| | |] [|]]]; try discriminate.
  intros Hxy. exists props. split; [reflexivity|]. congruence.
Qed.

Lemma finitePoint_inv (e : Elem) :
  finitePoint e = true ->
  exists x y, position_of e = Some (x, y) /\
    is_finite x = true /\ is_finite y = true.
Proof.
  unfold finitePoint. destruct (position_of e) as [[x y]|]; [|discriminate].
  intros Hf. apply andb_prop in Hf. eauto.
Qed.

Lemma coordinate_numeric (e : Elem) (x y : float) :
  position_of e = Some (x, y) ->
  truthyElem e = true /\
  coordinate e 0 = Some (JNum x) /\ coordinate e 1 = Some (JNum y) /\
  is_Some (sortKey e).
Proof.
  intros Hp. destruct (position_of_inv e x y Hp) as (props & -> & Hown).
  unfold sortKey, coordinate. simpl. rewrite Hown. simpl.
  repeat split. destruct (truthy (own props "time")); eauto.
Qed.

Lemma chained_snoc (l : list Elem) (a b : Elem) :
  chained (l ++ [a]) = true -> near a b = true ->
  chained ((l ++ [a]) ++ [b]) = true.
Proof.
  induction l as [|x l IH]; simpl.
  - intros _ ->. reflexivity.
  - destruct l as [|y l]; simpl in *.
    + intros Hxa ->. exact Hxa.
    + intros Hc Hab. apply andb_prop in Hc as [Hxy Hc].
      rewrite Hxy. simpl. apply IH; assumption.
Qed.

Section Loop.
Context `{Formatter} `{Engine}.

Lemma breaksLine_finite (p np : Elem) :
  finitePoint p = true -> finitePoint np = true ->
  exists b, breaksLine p (Some np) = Some b /\ (b = false -> near p np = true).
Proof.
  intros Hp Hnp.
  destruct (finitePoint_inv p Hp) as (px & py & Hpp & Hpx & Hpy).
  destruct (finitePoint_inv np Hnp) as (nx & ny & Hpn & Hnx & Hny).
  destruct (coordinate_numeric p px py Hpp) as (_ & Hp0 & Hp1 & _).
  destruct (coordinate_numeric np nx ny Hpn) as (Ht & Hn0 & Hn1 & _).
  unfold breaksLine. rewrite Ht, Hn0, Hp0, Hn1, Hp1. simpl.
  unfold math_abs. unfold near. rewrite Hpp, Hpn.
  destruct (1 <? abs (nx - px))%float eqn:E1.
  - eexists. split; [reflexivity|discriminate].
  - eexists. split; [reflexivity|]. intros E2.
    rewrite !FloatFacts.not_apart_finite; auto.
Qed.

Variables (h0 : heap) (sortedPoints trajectories : loc) (ys : list Elem).
Hypothesis ys_finite : Forall (fun e => finitePoint e = true) ys.

(** The original heap is untouched. *)
Definition framed (h : heap) : Prop :=
  forall l, l ∈ dom h0 -> h !! l = h0 !! l.

(** The lines pushed so far are good, and live apart from the arrays the
    loop still writes. *)
Definition stored (h : heap) (currentLine : loc) (locs : list loc) : Prop :=
  h !! trajectories = Some (ERef <$> locs) /\
  Forall (fun l => l <> currentLine /\ l <> trajectories /\
            exists line, h !! l = Some line /\ goodLine line) locs.

Lemma framed_insert (h : heap) (l : loc) (xs : list Elem) :
  framed h -> l ∉ dom h0 -> framed (<[l := xs]> h).
Proof.
  intros Hf Hl l' Hl'. rewrite lookup_insert_ne; [auto|]. intros ->. auto.
Qed.

Lemma framed_fresh (h : heap) (l : loc) :
  framed h -> h !! l = None -> l ∉ dom h0.
Proof.
  intros Hf Hl Hin. specialize (Hf l Hin).
  apply elem_of_dom in Hin as [xs Hxs]. congruence.
Qed.

Lemma fresh_None (h : heap) : h !! fresh (dom h) = None.
Proof. apply not_elem_of_dom, is_fresh. Qed.

Lemma loop_invariant (fuel : nat) :
  forall (i : nat) (currentLine : loc) (h : heap) (line : list Elem) (locs : list loc),
  length ys <= fuel + i ->
  h !! sortedPoints = Some ys ->
  sortedPoints <> currentLine -> sortedPoints <> trajectories ->
  currentLine <> trajectories ->
  h !! currentLine = Some line ->
  (forall p, ys !! i = Some p -> chained (line ++ [p]) = true) ->
  stored h currentLine locs ->
  framed h -> currentLine ∉ dom h0 -> trajectories ∉ dom h0 ->
  exists h' locs',
    loop fuel i sortedPoints trajectories currentLine h = Some h' /\
    h' !! trajectories = Some (ERef <$> locs') /\
    Forall (fun l => exists line, h' !! l = Some line /\ goodLine line) locs' /\
    framed h'.
Proof.
  induction fuel as [|fuel IH];
    intros i cur h line locs Hlen Hsp Hsc Hst Hct Hcur Hchain [Htr Hlocs] Hfr Hc0 Ht0.
  - exists h, locs. simpl. rewrite Hsp. simpl.
    rewrite (lookup_ge_None_2 ys i) by lia.
    repeat split; auto.
    eapply Forall_impl; [exact Hlocs|]. intros l (_ & _ & Hl). exact Hl.
  - simpl. rewrite Hsp. simpl.
    destruct (ys !! i) as [point|] eqn:Ei.
    2:{ exists h, locs. repeat split; auto.
        eapply Forall_impl; [exact Hlocs|]. intros l (_ & _ & Hl). exact Hl. }
    unfold push at 1. rewrite Hcur. simpl.
    set (h1 := <[cur := line ++ [point]]> h).
    assert (Hp : finitePoint point = true).
    { exact (Forall_lookup_1 (fun e => finitePoint e = true) ys i point ys_finite Ei). }
    assert (H1sp : h1 !! sortedPoints = Some ys).
    { unfold h1. rewrite lookup_insert_ne; auto. }
    assert (H1cur : h1 !! cur = Some (line ++ [point])).
    { unfold h1. apply lookup_insert_eq. }
    assert (H1tr : h1 !! trajectories = Some (ERef <$> locs)).
    { unfold h1. rewrite lookup_insert_ne; auto. }
    assert (H1fr : framed h1) by (apply framed_insert; assumption).
    assert (H1locs : Forall (fun l => l <> cur /\ l <> trajectories /\
              exists line, h1 !! l = Some line /\ goodLine line) locs).
    { eapply Forall_impl; [exact Hlocs|]. intros l (Hl1 & Hl2 & Hl3).
      repeat split; auto. unfold h1. rewrite lookup_insert_ne; auto. }
    assert (Hends : exists ends, breaksLine point (ys !! (i + 1)) = Some ends /\
              (ends = false -> exists np, ys !! S i = Some np /\ near point np = true)).
    { rewrite Nat.add_1_r. destruct (ys !! S i) as [np|] eqn:En.
      - destruct (breaksLine_finite point np) as (b & Hb1 & Hb2); auto.
        { exact (Forall_lookup_1 (fun e => finitePoint e = true) ys (S i) np ys_finite En). }
        exists b. split; [exact Hb1|]. intros Hb. eauto.
      - exists true. split; [reflexivity|discriminate]. }
    destruct Hends as (ends & -> & Hnear). simpl.
    destruct ends.
    + (* the line ends here *)
      assert (Hclose : exists h2 locs2,
                closeLine trajectories cur h1 = Some h2 /\
                h2 !! sortedPoints = Some ys /\
                framed h2 /\ stored h2 cur locs2 /\ is_Some (h2 !! cur)).
      { unfold closeLine. rewrite H1cur. simpl.
        destruct (1 <? length (line ++ [point]))%nat eqn:Elen.
        - unfold spread. rewrite H1cur. simpl.
          set (c := fresh (dom h1)).
          assert (Hc : h1 !! c = None) by apply fresh_None.
          unfold push. rewrite lookup_insert_ne by congruence.
          rewrite H1tr. simpl.
          eexists _, (locs ++ [c]). split; [reflexivity|].
          assert (Hctr : c <> trajectories) by congruence.
          assert (Hccur : c <> cur) by congruence.
          assert (Hcsp : c <> sortedPoints) by congruence.
          split; [|split; [|split]].
          + rewrite !lookup_insert_ne by auto. exact H1sp.
          + apply framed_insert; [|exact Ht0].
            apply framed_insert; [exact H1fr|].
            eapply framed_fresh; eassumption.
          + split.
            * rewrite lookup_insert_eq, fmap_app. reflexivity.
            * apply Forall_app. split.
              -- eapply Forall_impl; [exact H1locs|].
                 intros l (Hl1 & Hl2 & l' & Hl3 & Hl4).
                 repeat split; auto. exists l'. split; [|exact Hl4].
                 rewrite !lookup_insert_ne by congruence. exact Hl3.
              -- apply Forall_singleton. repeat split; auto.
                 ++ exists (line ++ [point]). split.
                    ** rewrite lookup_insert_ne by auto. apply lookup_insert_eq.
                    ** split; [apply Nat.ltb_lt in Elen; lia|].
                       apply Hchain. reflexivity.
          + rewrite !lookup_insert_ne by auto. rewrite H1cur. eauto.
        - exists h1, locs. unfold stored. rewrite H1cur. eauto 10. }
      destruct Hclose as (h2 & locs2 & -> & H2sp & H2fr & [H2tr H2locs] & H2cur).
      simpl. set (cur' := fresh (dom h2)).
      assert (Hc' : h2 !! cur' = None) by apply fresh_None.
      assert (Hc'sp : sortedPoints <> cur') by congruence.
      assert (Hc'tr : cur' <> trajectories) by congruence.
      apply (IH (S i) cur' (<[cur' := []]> h2) [] locs2).
      * lia.
      * rewrite lookup_insert_ne by auto. exact H2sp.
      * exact Hc'sp.
      * exact Hst.
      * exact Hc'tr.
      * apply lookup_insert_eq.
      * intros p _. reflexivity.
      * split.
        -- rewrite lookup_insert_ne by auto. exact H2tr.
        -- eapply Forall_impl; [exact H2locs|].
           intros l (Hl1 & Hl2 & l' & Hl3 & Hl4).
           assert (l <> cur') by congruence.
           repeat split; auto. exists l'. split; [|exact Hl4].
           rewrite lookup_insert_ne by auto. exact Hl3.
      * apply framed_insert; [exact H2fr|]. eapply framed_fresh; eassumption.
      * eapply framed_fresh; eassumption.
      * exact Ht0.
    + (* the line goes on *)
      destruct (Hnear eq_refl) as (np & Hnp & Hnn).
      apply (IH (S i) cur h1 (line ++ [point]) locs); auto.
      * lia.
      * intros p Hp'. rewrite Hnp in Hp'. injection Hp' as <-.
        apply chained_snoc; auto.
      * split; assumption.
Qed.

End Loop.

Lemma mapM_stored (h : heap) (locs : list loc) :
  Forall (fun l => exists line, h !! l = Some line /\ goodLine line) locs ->
  exists lines,
    mapM (fun r => match r with ERef l => h !! l | EVal _ => None end)
      (ERef <$> locs) = Some lines /\
    Forall goodLine lines.
Proof.
  induction 1 as [|l locs (line & Hl & Hg) _ (lines & IH & Hgs)].
  - exists []. split; [reflexivity|constructor].
  - exists (line :: lines). rewrite fmap_cons. cbn [mapM].
    rewrite Hl. cbn [mbind option_bind]. rewrite IH.
    split; [reflexivity|]. constructor; assumption.
Qed.

Lemma readLines_stored (h : heap) (trajectories : loc) (locs : list loc) :
  h !! trajectories = Some (ERef <$> locs) ->
  Forall (fun l => exists line, h !! l = Some line /\ goodLine line) locs ->
  exists lines, readLines h trajectories = Some lines /\ Forall goodLine lines.
Proof.
  intros Htr Hlocs. unfold readLines. rewrite Htr.
  apply mapM_stored, Hlocs.
Qed.

(** What a call on finite positions does, by what the sort does. *)
Lemma createTrajectories_finite `{Formatter} `{Engine} (h : heap) (points : loc)
    (ps : list Elem) :
  h !! points = Some ps ->
  Forall (fun e => finitePoint e = true) ps ->
  match array_sort byTime ps with
  | Some _ =>
      exists trajectories h' lines,
        createTrajectories h points = Some (trajectories, h') /\
        readLines h' trajectories = Some lines /\
        Forall goodLine lines /\
        h' !! points = Some ps /\
        (forall l, l ∈ dom h -> h' !! l = h !! l)
  | None => createTrajectories h points = None
  end.
Proof.
  intros Hps Hnum. unfold createTrajectories, alloc.
  set (traj := fresh (dom h)). set (h1 := <[traj := []]> h).
  set (cur := fresh (dom h1)). set (h2 := <[cur := []]> h1).
  assert (Htraj : h !! traj = None) by apply fresh_None.
  assert (Hcur : h1 !! cur = None) by apply fresh_None.
  assert (Hct : cur <> traj).
  { intros E. rewrite E in Hcur. unfold h1 in Hcur.
    rewrite lookup_insert_eq in Hcur. discriminate. }
  assert (Hpt : traj <> points) by congruence.
  assert (H1ps : h1 !! points = Some ps).
  { unfold h1. rewrite lookup_insert_ne by auto. exact Hps. }
  assert (Hpc : cur <> points) by congruence.
  assert (H2ps : h2 !! points = Some ps).
  { unfold h2. rewrite lookup_insert_ne by auto. exact H1ps. }
  unfold spread, alloc. rewrite H2ps. simpl.
  set (sp := fresh (dom h2)).
  assert (Hsp : h2 !! sp = None) by apply fresh_None.
  assert (Hsc : sp <> cur).
  { intros E. rewrite E in Hsp. unfold h2 in Hsp.
    rewrite lookup_insert_eq in Hsp. discriminate. }
  assert (Hst : sp <> traj).
  { intros E. rewrite E in Hsp. unfold h2, h1 in Hsp.
    rewrite lookup_insert_ne, lookup_insert_eq in Hsp by auto. discriminate. }
  rewrite lookup_insert_eq. simpl.
  destruct (array_sort byTime ps) as [ys|] eqn:Hsort; [|reflexivity].
  pose proof (array_sort_permutes _ _ _ Hsort) as Hperm.
  simpl.
  assert (Hys : Forall (fun e => finitePoint e = true) ys)
    by (rewrite Hperm; exact Hnum).
  assert (Hfr0 : forall l, l ∈ dom h -> l <> traj /\ l <> cur /\ l <> sp).
  { intros l Hl. apply elem_of_dom in Hl as [xs Hl].
    assert (l <> traj) by congruence.
    assert (h1 !! l = Some xs) by (unfold h1; rewrite lookup_insert_ne; auto).
    assert (l <> cur) by congruence.
    assert (h2 !! l = Some xs) by (unfold h2; rewrite lookup_insert_ne; auto).
    assert (l <> sp) by congruence. auto. }
  destruct (loop_invariant h sp traj ys Hys (length ys) 0 cur
              (<[sp := ys]> (<[sp := ps]> h2)) [] [])
    as (h' & locs & -> & Htr' & Hlocs & Hfr).
  - lia.
  - apply lookup_insert_eq.
  - exact Hsc.
  - exact Hst.
  - exact Hct.
  - rewrite !lookup_insert_ne by auto. apply lookup_insert_eq.
  - intros p _. reflexivity.
  - split; [|constructor].
    rewrite !lookup_insert_ne by auto. unfold h2.
    rewrite lookup_insert_ne by auto. apply lookup_insert_eq.
  - intros l Hl. destruct (Hfr0 l Hl) as (? & ? & ?).
    rewrite !lookup_insert_ne by auto. unfold h2, h1.
    rewrite !lookup_insert_ne by auto. reflexivity.
  - intros Hin. destruct (Hfr0 cur Hin) as (_ & ? & _). congruence.
  - intros Hin. destruct (Hfr0 traj Hin) as (? & _). congruence.
  - simpl. destruct (readLines_stored h' traj locs Htr' Hlocs) as (lines & Hr & Hg).
    exists traj, h', lines. repeat split; auto.
    rewrite Hfr; [exact Hps|]. apply elem_of_dom. eauto.
Qed.

(** C9, as amended: on an array of points whose positions are arrays of
    two finite numbers, every line of the array that
    [createTrajectories] returns has at least two points; two
    consecutive points of a line are at most 1 apart in longitude and in
    latitude, by the subtraction the code computes; and every array that
    existed before the call, the argument among them, holds what it held
    before. The call returns when every [time] that is truthy has a
    primitive value, so that the comparator does not throw. *)
Theorem createTrajectories_lines `{Formatter} `{Engine} (h : heap) (points : loc)
    (ps : list Elem) :
  h !! points = Some ps ->
  Forall (fun e => finitePoint e = true) ps ->
  (forall trajectories h',
     createTrajectories h points = Some (trajectories, h') ->
     exists lines,
       readLines h' trajectories = Some lines /\
       Forall (fun line => 2 <= length line /\ chained line = true) lines /\
       h' !! points = Some ps /\
       (forall l, l ∈ dom h -> h' !! l = h !! l)) /\
  (Forall (fun e => sortable e = true) ps ->
   is_Some (createTrajectories h points)).
Proof.
  intros Hps Hfin.
  pose proof (createTrajectories_finite h points ps Hps Hfin) as Hcall.
  split.
  - intros trajectories h' Hret.
    destruct (array_sort byTime ps) as [ys|].
    + destruct Hcall as (t & h'' & lines & Hc & Hr & Hg & Hp & Hfr).
      rewrite Hc in Hret. injection Hret as <- <-.
      exists lines. auto.
    + rewrite Hcall in Hret. discriminate.
  - intros Hkeys.
    destruct (array_sort_returns byTime ps) as [ys Hsort].
    { intros a b Ha Hb. rewrite Forall_forall in Hkeys.
      apply byTime_sortable; auto. }
    rewrite Hsort in Hcall.
    destruct Hcall as (t & h' & lines & -> & _). eauto.
Qed.

Lemma createTrajectories_lines_witness :
  (forall trajectories h',
     @createTrajectories exactFormatter referenceEngine trackHeap 0 =
       Some (trajectories, h') ->
     exists lines,
       readLines h' trajectories = Some lines /\
       Forall (fun line => 2 <= length line /\ chained line = true) lines /\
       h' !! 0 = Some trackPoints /\
       (forall l, l ∈ dom trackHeap -> h' !! l = trackHeap !! l)) /\
  (Forall (fun e => sortable e = true) trackPoints ->
   is_Some (@createTrajectories exactFormatter referenceEngine trackHeap 0)).
Proof.
  apply (@createTrajectories_lines exactFormatter referenceEngine
           trackHeap 0 trackPoints).
  - reflexivity.
  - repeat constructor.
Defined.

Example createTrajectories_run :
  (match @createTrajectories exactFormatter referenceEngine trackHeap 0 with
   | Some (t, h) => readLines h t
   | None => None
   end) = Some [ [track 1 0; track 1.5 0.5]; [track 3 0; track 3.5 0.25] ].
Proof. vm_compute. reflexivity. Qed.

(** The difference that is compared with 1 is the rounded one: two
    longitudes that are [1 + 2^-60] apart are taken to be 1 apart. *)
Example near_rounds_difference :
  (-0x1p-60 <? 0)%float = true /\
  (1 - -0x1p-60 =? 1)%float = true /\
  near (track (-0x1p-60) 0) (track 1 0) = true.
Proof. repeat split. Qed.

(** C9, counterexample: [1e999] in a response is read as [Infinity], a
    number. Two points at an infinite longitude are put on one line,
    although the difference of their longitudes is NaN, which is not at
    most 1. *)
Lemma createTrajectories_infinite_longitude :
  Forall (fun e => numericPoint e = true) farPoints /\
  (match @createTrajectories exactFormatter referenceEngine farHeap 0 with
   | Some (t, h) => readLines h t
   | None => None
   end) = Some [farPoints] /\
  chained farPoints = false.
Proof.
  split; [repeat constructor|]. split; vm_compute; reflexivity.
Qed.

(** A [time] that has no primitive value makes the comparator throw,
    whatever the positions. *)
Example createTrajectories_bad_time :
  Forall (fun e => finitePoint e = true) timedPoints /\
  @createTrajectories exactFormatter referenceEngine timedHeap 0 = None.
Proof.
  split; [repeat constructor|]. vm_compute. reflexivity.
Qed.

(** * Further properties *)

(** ** More on the validity filter *)

Lemma filter_sublist_of {A} (f : A -> bool) (l : list A) :
  sublist (List.filter f l) l.
Proof.
  induction l as [|x l IH]; simpl; [constructor|].
  destruct (f x); [apply sublist_skip|apply sublist_cons]; exact IH.
Qed.

Lemma filter_idempotent {A} (f : A -> bool) (l : list A) :
  List.filter f (List.filter f l) = List.filter f l.
Proof.
  induction l as [|x l IH]; simpl; [reflexivity|].
  destruct (f x) eqn:E; simpl; rewrite ?E, IH; reflexivity.
Qed.

Lemma filter_sublist_impl {A} (f g : A -> bool) (l : list A) :
  (forall x, f x = true -> g x = true) ->
  sublist (List.filter f l) (List.filter g l).
Proof.
  intros Hfg. induction l as [|x l IH]; simpl; [constructor|].
  destruct (f x) eqn:E.
  - rewrite (Hfg x E). apply sublist_skip, IH.
  - destruct (g x); [apply sublist_cons|]; exact IH.
Qed.

Lemma validData_Some_inv (data : JsVal) (viewMode : string) (out : list JsVal) :
  validData data viewMode = Some out ->
  out = [] \/ exists l, data = JArr l /\ out = List.filter (validFeature viewMode) l.
Proof.
  unfold validData. destruct (negb (truthy data) || length_is data 0).
  - intros [= <-]. left. reflexivity.
  - destruct data; try discriminate. intros [= <-]. right. eauto.
Qed.

(** X1: on an array [validData] never throws, and its output is a
    subsequence of the input: the kept records in their original order,
    nothing added, nothing repeated. The "Valid" count of the sidebar is
    therefore at most the "Raw" count. *)
Theorem validData_subsequence (l : list JsVal) (viewMode : string) :
  exists out, validData (JArr l) viewMode = Some out /\
    sublist out l /\ length out <= length l.
Proof.
  rewrite validData_array. eexists. split; [reflexivity|].
  split; [apply filter_sublist_of|].
  apply sublist_length, filter_sublist_of.
Qed.

(** X2: [validData] is idempotent: filtering its own output again, in the
    same view mode, returns that output unchanged. *)
Theorem validData_idempotent (data : JsVal) (viewMode : string) (out : list JsVal) :
  validData data viewMode = Some out ->
  validData (JArr out) viewMode = Some out.
Proof.
  intros Hv. rewrite validData_array. f_equal.
  destruct (validData_Some_inv _ _ _ Hv) as [->|(l & _ & ->)]; [reflexivity|].
  apply filter_idempotent.
Qed.

Lemma validData_idempotent_witness :
  validData (JArr [goodSounding; threeCornerSounding]) "point" =
  Some [goodSounding; threeCornerSounding].
Proof.
  apply (validData_idempotent
           (JArr [goodSounding; highSounding; threeCornerSounding]) "point").
  reflexivity.
Defined.

Lemma validPolygon_validPoint (d : JsVal) :
  validPolygon d = true -> validPoint d = true.
Proof.
  unfold validPolygon, validPoint. intros Hv.
  repeat (apply andb_prop in Hv as [Hv ?]).
  repeat (apply andb_true_intro; split); assumption.
Qed.

(** X3: whatever polygon mode shows, point mode shows too: for the same
    data, the output in a view mode other than ["point"] is a subsequence
    of the output in point mode. *)
Theorem validData_polygon_within_point (data : JsVal) (viewMode : string)
    (polygons points : list JsVal) :
  viewMode <> "point" ->
  validData data viewMode = Some polygons ->
  validData data "point" = Some points ->
  sublist polygons points.
Proof.
  intros Hm Hpoly Hpoint.
  destruct (validData_Some_inv _ _ _ Hpoly) as [->|(l & -> & ->)];
    [apply sublist_nil_l|].
  rewrite validData_array in Hpoint. injection Hpoint as <-.
  apply filter_sublist_impl. intros d. unfold validFeature.
  destruct (String.eqb_spec viewMode "point") as [->|_]; [contradiction|].
  simpl. apply validPolygon_validPoint.
Qed.

Lemma validData_polygon_within_point_witness :
  sublist [goodSounding] [goodSounding; threeCornerSounding].
Proof.
  apply (validData_polygon_within_point
           (JArr [goodSounding; highSounding; threeCornerSounding]) "polygon").
  - discriminate.
  - reflexivity.
  - reflexivity.
Defined.

(** [validData] throws exactly when the [data] state is truthy, is not
    an array and does not have a [length] equal to 0: then [data.filter]
    is not a function. *)
Lemma validData_throws_iff (data : JsVal) (viewMode : string) :
  validData data viewMode = None <->
  truthy data = true /\ isArray data = false /\ length_is data 0 = false.
Proof.
  unfold validData.
  destruct (truthy data) eqn:Ht; simpl.
  - destruct (length_is data 0) eqn:Hl.
    + split; [discriminate|]. intros (_ & _ & ?). discriminate.
    + destruct data; simpl; split; intros H;
        try discriminate; try reflexivity; try (repeat split; reflexivity);
        try (destruct H as (_ & ? & _); discriminate).
  - split; [discriminate|]. intros (? & _). discriminate.
Qed.

(** X5: the filter reads [position], [xco2] and [vertices] and nothing
    else: two records that agree on these three properties are kept or
    dropped together, in every view mode, whatever their sounding id,
    time or quality flag. *)
Theorem validFeature_reads_three_properties (viewMode : string)
    (props props' : list (string * JsVal)) :
  own props "position" = own props' "position" ->
  own props "xco2" = own props' "xco2" ->
  own props "vertices" = own props' "vertices" ->
  validFeature viewMode (JObj props) = validFeature viewMode (JObj props').
Proof.
  intros Hp Hx Hv. unfold validFeature, validPoint, validPolygon. simpl.
  rewrite Hp, Hx, Hv. reflexivity.
Qed.

Lemma validFeature_reads_three_properties_witness :
  validFeature "polygon" poorSounding =
  validFeature "polygon"
    (JObj [ ("vertices", JArr corners); ("xco2", JNum 410);
            ("position", JArr [JNum 10.5; JNum 20.5]) ]).
Proof.
  apply validFeature_reads_three_properties; reflexivity.
Defined.

(** ** More on [fetchData] *)

(** X6: [fetchData] never clears the error indicator and never removes a
    console entry: an error that is set stays set after any fetch, a
    successful one included, and the console only grows. *)
Theorem fetchData_keeps_error (net : option Query -> Response)
    (viewport : option Viewport) (s : AppState) :
  (is_Some (error s) -> is_Some (error (fetchData net viewport s))) /\
  console s `prefix_of` console (fetchData net viewport s).
Proof.
  unfold fetchData.
  destruct (net _) as [e|e|result]; simpl;
    try solve [split; [eauto|apply prefix_app_r; reflexivity]].
  destruct (prop result "data") as [d|]; simpl;
    [|split; [eauto|apply prefix_app_r; reflexivity]].
  destruct (truthy d); simpl.
  - destruct (convertible (get d "length")); simpl.
    + split; [auto|reflexivity].
    + split; [eauto|apply prefix_app_r; reflexivity].
  - split; [auto|apply prefix_app_r; reflexivity].
Qed.

(** X7: [fetchData] writes [data] only from a response that carries a
    truthy [data]: afterwards the state holds either what it held or
    that value. In particular a truthy [data] state stays truthy, as it
    is from the initial empty array on. *)
Theorem fetchData_data_written_once (net : option Query -> Response)
    (viewport : option Viewport) (s : AppState) :
  (data (fetchData net viewport s) = data s \/
   exists result,
     net (buildRequest s viewport) = Json result /\
     prop result "data" = Some (data (fetchData net viewport s)) /\
     truthy (data (fetchData net viewport s)) = true) /\
  (truthy (data s) = true -> truthy (data (fetchData net viewport s)) = true).
Proof.
  unfold fetchData.
  destruct (net _) as [e|e|result] eqn:Hnet; simpl; try solve [split; auto].
  destruct (prop result "data") as [d|] eqn:Hd; simpl; [|split; auto].
  destruct (truthy d) eqn:Ht; simpl; [|split; auto].
  destruct (convertible (get d "length")); simpl; split; eauto.
Qed.

(** Two other ways a fetch can fail are caught like a network error: a body that is not JSON, and a body that is the JSON [null]
    (reading [result.data] throws). Both set the error indicator, log to
    the console and leave [data] as it was. *)
Lemma fetchData_bad_body (net : option Query -> Response)
    (viewport : option Viewport) (s : AppState) :
  (forall e, net (buildRequest s viewport) = InvalidJson e ->
     data (fetchData net viewport s) = data s /\
     error (fetchData net viewport s) = Some (message e) /\
     console (fetchData net viewport s) = console s ++ [ErrorFetchingData e]) /\
  (net (buildRequest s viewport) = Json JNull ->
     data (fetchData net viewport s) = data s /\
     is_Some (error (fetchData net viewport s)) /\
     length (console (fetchData net viewport s)) = S (length (console s))).
Proof.
  unfold fetchData. split.
  - intros e ->. repeat split.
  - intros ->. simpl. repeat split; [eauto|].
    rewrite length_app. simpl. lia.
Qed.

(** X9: [fetchData] stores any truthy [data], array or not, once its
    [length] has been printed to the console. When the response carries
    a truthy [data] that is not an array and has no [length] equal to 0
    (a number, a non-empty string, most objects), and that [length] has
    a primitive value, the next evaluation of [validData] throws. *)
Theorem fetchData_non_array_breaks_validData (net : option Query -> Response)
    (viewport : option Viewport) (s : AppState) (result d : JsVal) :
  net (buildRequest s viewport) = Json result ->
  prop result "data" = Some d ->
  truthy d = true -> isArray d = false -> length_is d 0 = false ->
  convertible (get d "length") = true ->
  data (fetchData net viewport s) = d /\
  validData (data (fetchData net viewport s))
    (viewMode (fetchData net viewport s)) = None.
Proof.
  intros Hnet Hd Ht Ha Hl Hc. unfold fetchData.
  rewrite Hnet, Hd, Ht, Hc. simpl.
  split; [reflexivity|]. unfold validData. rewrite Ht, Hl. simpl.
  destruct d; try reflexivity; discriminate.
Qed.

Lemma fetchData_non_array_breaks_validData_witness :
  data (fetchData (fun _ => Json (JObj [("data", JNum 5)])) None shownState) =
    JNum 5 /\
  validData
    (data (fetchData (fun _ => Json (JObj [("data", JNum 5)])) None shownState))
    (viewMode (fetchData (fun _ => Json (JObj [("data", JNum 5)])) None shownState))
  = None.
Proof.
  apply (fetchData_non_array_breaks_validData
           (fun _ => Json (JObj [("data", JNum 5)])) None shownState
           (JObj [("data", JNum 5)]) (JNum 5)); reflexivity.
Defined.

(** A [data] whose [length] has no primitive value is not stored: the
    template literal of the console message throws, and the [catch]
    block sets the error indicator. *)
Example fetchData_unprintable_length :
  let body := JObj [("data", JObj [("length", JObj [("toString", JNum 1)])])] in
  data (fetchData (fun _ => Json body) None shownState) = data shownState /\
  error (fetchData (fun _ => Json body) None shownState) =
    Some "Cannot convert object to primitive value".
Proof. split; reflexivity. Qed.

(** ** More on the rendering hints *)

(** X10: both hints shrink as the zoom grows: for [z1 <= z2] the point
    radius and the grid size at [z2] are at most those at [z1]. *)
Theorem rendering_hints_antitone (z1 z2 : float) :
  (z1 <=? z2)%float = true ->
  (getPointRadius z2 <=? getPointRadius z1)%float = true /\
  (getGridSize z2 <=? getGridSize z1)%float = true.
Proof.
  intros H12. unfold getPointRadius, getGridSize.
  destruct (z2 <=? 3)%float eqn:H23.
  { rewrite (FloatFacts.leb_trans _ _ _ H12 H23). split; reflexivity. }
  destruct (z2 <=? 5)%float eqn:H25.
  { pose proof (FloatFacts.leb_trans _ _ _ H12 H25) as H15. rewrite H15.
    destruct (z1 <=? 3)%float; split; reflexivity. }
  destruct (z1 <=? 3)%float; [split; reflexivity|].
  destruct (z1 <=? 5)%float; split; reflexivity.
Qed.

Lemma rendering_hints_antitone_witness :
  (getPointRadius 4.5 <=? getPointRadius 2)%float = true /\
  (getGridSize 4.5 <=? getGridSize 2)%float = true.
Proof. apply (rendering_hints_antitone 2 4.5). reflexivity. Defined.

(** ** More on the debounce *)

Module DebounceBurstFacts.
Import Debounce DebounceBursts.

Lemma step_rearm_deps (s : Sched) (d : FetchDeps) (pause : nat) :
  d <> deps s -> pause < 500 ->
  step (step s (SetFetchDeps d)) (Elapse pause) =
    {| clock := clock s + pause; deps := d;
       landCoverVisible := landCoverVisible s; deckReady := deckReady s;
       timer := Some (clock s + 500, d); calls := calls s |}.
Proof.
  intros Hd Hp. cbn [step]. destruct (decide (d = deps s)); [contradiction|].
  unfold rerunEffect. cbn.
  destruct (Nat.leb_spec (clock s + 500) (clock s + pause)); [lia|reflexivity].
Qed.

Lemma step_rearm_land_cover (s : Sched) (pause : nat) :
  pause < 500 ->
  step (step s (SetLandCoverVisible (negb (landCoverVisible s)))) (Elapse pause) =
    {| clock := clock s + pause; deps := deps s;
       landCoverVisible := negb (landCoverVisible s); deckReady := deckReady s;
       timer := Some (clock s + 500, deps s); calls := calls s |}.
Proof.
  intros Hp. cbn [step].
  destruct (decide (negb (landCoverVisible s) = landCoverVisible s)) as [E|_].
  { destruct (landCoverVisible s); discriminate. }
  unfold rerunEffect. cbn.
  destruct (Nat.leb_spec (clock s + 500) (clock s + pause)); [lia|reflexivity].
Qed.

Lemma lastChangeAt_cons (t : nat) (c : Change * nat) (cs : list (Change * nat)) :
  cs <> [] -> lastChangeAt t (c :: cs) = lastChangeAt (t + snd c) cs.
Proof. destruct cs; [contradiction|]. destruct c. reflexivity. Qed.

(** From a state whose timer is armed for the current dependencies. *)
Lemma quick_changes_armed (cs : list (Change * nat)) :
  forall (s : Sched) (t : nat),
  timer s = Some (t, deps s) -> clock s < t <= clock s + 500 ->
  quick (deps s) cs ->
  calls (run s (changeEvents (landCoverVisible s) cs ++ [Elapse 500])) =
  calls s ++ [(match cs with
               | [] => t
               | _ => lastChangeAt (clock s) cs + 500
               end, finalDeps (deps s) cs)].
Proof.
  induction cs as [|[c pause] cs IH]; intros s t Ht Hlt Hq.
  - cbn. rewrite Ht.
    destruct (Nat.leb_spec t (clock s + 500)); [reflexivity|lia].
  - destruct c as [d|].
    + destruct Hq as (Hd & Hp & Hq).
      change (run s (changeEvents (landCoverVisible s) ((ChangeDeps d, pause) :: cs)
                     ++ [Elapse 500]))
        with (run (step (step s (SetFetchDeps d)) (Elapse pause))
                (changeEvents (landCoverVisible s) cs ++ [Elapse 500])).
      rewrite (step_rearm_deps s d pause Hd Hp).
      match goal with |- calls (run ?s' _) = _ =>
        specialize (IH s' (clock s + 500)) end.
      cbn [timer deps clock landCoverVisible calls] in IH.
      rewrite IH; [|reflexivity|lia|exact Hq].
      cbn [finalDeps]. destruct cs as [|c' cs]; [reflexivity|].
      rewrite (lastChangeAt_cons (clock s) (ChangeDeps d, pause)) by discriminate.
      reflexivity.
    + destruct Hq as (Hp & Hq).
      change (run s (changeEvents (landCoverVisible s) ((ToggleLandCover, pause) :: cs)
                     ++ [Elapse 500]))
        with (run (step (step s (SetLandCoverVisible (negb (landCoverVisible s))))
                     (Elapse pause))
                (changeEvents (negb (landCoverVisible s)) cs ++ [Elapse 500])).
      rewrite (step_rearm_land_cover s pause Hp).
      match goal with |- calls (run ?s' _) = _ =>
        specialize (IH s' (clock s + 500)) end.
      cbn [timer deps clock landCoverVisible calls] in IH.
      rewrite IH; [|reflexivity|lia|exact Hq].
      cbn [finalDeps]. destruct cs as [|c' cs]; [reflexivity|].
      rewrite (lastChangeAt_cons (clock s) (ToggleLandCover, pause)) by discriminate.
      reflexivity.
Qed.

Lemma step_deckReady (s : Sched) (ev : Event) :
  deckReady (step s ev) = deckReady s.
Proof.
  destruct ev; cbn.
  - destruct (decide _); reflexivity.
  - destruct (decide _); reflexivity.
  - unfold handleViewStateChange. destruct (deckReady s) eqn:E; cbn; auto.
  - destruct (timer s) as [[t d]|]; [destruct (_ <=? _)%nat|]; reflexivity.
Qed.

Lemma step_calls_bounds (s : Sched) (ev : Event) :
  length (calls s) +
    (if isViewStateChange ev && deckReady s then 1 else 0)
  <= length (calls (step s ev)) /\
  length (calls (step s ev)) + pending (step s ev)
  <= length (calls s) + pending s +
       (if isViewStateChange ev then 1 else 0) +
       (if isDependencyChange ev then 1 else 0).
Proof.
  unfold pending. destruct ev; cbn.
  - destruct (decide _); cbn; destruct (timer s); lia.
  - destruct (decide _); cbn; destruct (timer s); lia.
  - unfold handleViewStateChange. destruct (deckReady s); cbn;
      rewrite ?length_app; cbn; destruct (timer s); lia.
  - destruct (timer s) as [[t d]|]; [destruct (_ <=? _)%nat|]; cbn;
      rewrite ?length_app; cbn; lia.
Qed.

End DebounceBurstFacts.

(** X11: changes of the effect's dependencies that follow each other
    within less than 500 ms are coalesced, from any state: after the
    sequence and a pause of 500 ms exactly one fetch has been issued,
    500 ms after the last change and for the dependencies chosen last.
    The land-cover switch counts as such a change, although [fetchData]
    does not read it: switching the overlay alone re-issues the same
    request. *)
Theorem dependency_changes_debounced (s : Debounce.Sched)
    (c : DebounceBursts.Change) (pause : nat)
    (cs : list (DebounceBursts.Change * nat)) :
  DebounceBursts.quick (Debounce.deps s) ((c, pause) :: cs) ->
  Debounce.calls
    (Debounce.run s
       (DebounceBursts.changeEvents (Debounce.landCoverVisible s) ((c, pause) :: cs)
        ++ [Debounce.Elapse 500])) =
  Debounce.calls s ++
  [(DebounceBursts.lastChangeAt (Debounce.clock s) ((c, pause) :: cs) + 500,
    DebounceBursts.finalDeps (Debounce.deps s) ((c, pause) :: cs))].
Proof.
  intros Hq. destruct c as [d|].
  - destruct Hq as (Hd & Hp & Hq).
    change (Debounce.run s _)
      with (Debounce.run
              (Debounce.step (Debounce.step s (Debounce.SetFetchDeps d))
                 (Debounce.Elapse pause))
              (DebounceBursts.changeEvents (Debounce.landCoverVisible s) cs
               ++ [Debounce.Elapse 500])).
    rewrite (DebounceBurstFacts.step_rearm_deps s d pause Hd Hp).
    match goal with |- Debounce.calls (Debounce.run ?s' _) = _ =>
      pose proof (DebounceBurstFacts.quick_changes_armed cs s'
                    (Debounce.clock s + 500)) as Harmed end.
    cbn [Debounce.timer Debounce.deps Debounce.clock Debounce.landCoverVisible
         Debounce.calls] in Harmed.
    rewrite Harmed; [|reflexivity|lia|exact Hq].
    cbn [DebounceBursts.finalDeps].
    destruct cs as [|c' cs]; [reflexivity|].
    rewrite (DebounceBurstFacts.lastChangeAt_cons (Debounce.clock s)
               (DebounceBursts.ChangeDeps d, pause)) by discriminate.
    reflexivity.
  - destruct Hq as (Hp & Hq).
    change (Debounce.run s _)
      with (Debounce.run
              (Debounce.step
                 (Debounce.step s
                    (Debounce.SetLandCoverVisible (negb (Debounce.landCoverVisible s))))
                 (Debounce.Elapse pause))
              (DebounceBursts.changeEvents (negb (Debounce.landCoverVisible s)) cs
               ++ [Debounce.Elapse 500])).
    rewrite (DebounceBurstFacts.step_rearm_land_cover s pause Hp).
    match goal with |- Debounce.calls (Debounce.run ?s' _) = _ =>
      pose proof (DebounceBurstFacts.quick_changes_armed cs s'
                    (Debounce.clock s + 500)) as Harmed end.
    cbn [Debounce.timer Debounce.deps Debounce.clock Debounce.landCoverVisible
         Debounce.calls] in Harmed.
    rewrite Harmed; [|reflexivity|lia|exact Hq].
    cbn [DebounceBursts.finalDeps].
    destruct cs as [|c' cs]; [reflexivity|].
    rewrite (DebounceBurstFacts.lastChangeAt_cons (Debounce.clock s)
               (DebounceBursts.ToggleLandCover, pause)) by discriminate.
    reflexivity.
Qed.

Lemma dependency_changes_debounced_witness :
  Debounce.calls
    (Debounce.run (Debounce.mount DebounceSamples.pointDeps true)
       (DebounceBursts.changeEvents false
          [ (DebounceBursts.ChangeDeps DebounceSamples.polygonDeps, 100);
            (DebounceBursts.ToggleLandCover, 200);
            (DebounceBursts.ChangeDeps DebounceSamples.pointDeps, 50) ]
        ++ [Debounce.Elapse 500])) =
  [] ++ [(300 + 500, DebounceSamples.pointDeps)].
Proof.
  apply (dependency_changes_debounced
           (Debounce.mount DebounceSamples.pointDeps true)
           (DebounceBursts.ChangeDeps DebounceSamples.polygonDeps) 100
           [ (DebounceBursts.ToggleLandCover, 200);
             (DebounceBursts.ChangeDeps DebounceSamples.pointDeps, 50) ]).
  simpl. repeat split; try lia; discriminate.
Defined.

(** X12: on a component whose deck exists every viewport change costs a
    fetch: over any sequence of events, at least as many fetches are
    issued as there are viewport changes in it. *)
Theorem viewport_changes_all_fetch (evs : list Debounce.Event) (s : Debounce.Sched) :
  Debounce.deckReady s = true ->
  length (Debounce.calls s) +
    length (List.filter DebounceBursts.isViewStateChange evs)
  <= length (Debounce.calls (Debounce.run s evs)).
Proof.
  revert s. induction evs as [|ev evs IH]; intros s Hd; [cbn; lia|].
  change (Debounce.run s (ev :: evs))
    with (Debounce.run (Debounce.step s ev) evs).
  specialize (IH (Debounce.step s ev)).
  rewrite DebounceBurstFacts.step_deckReady in IH. specialize (IH Hd).
  destruct (DebounceBurstFacts.step_calls_bounds s ev) as [Hlow _].
  rewrite Hd, andb_true_r in Hlow.
  cbn [List.filter]. destruct (DebounceBursts.isViewStateChange ev); cbn; lia.
Qed.

Lemma viewport_changes_all_fetch_witness :
  length (Debounce.calls (Debounce.mount DebounceSamples.pointDeps true)) +
    length (List.filter DebounceBursts.isViewStateChange
              [ Debounce.ViewStateChange; Debounce.Elapse 600;
                Debounce.ViewStateChange ])
  <= length (Debounce.calls
               (Debounce.run (Debounce.mount DebounceSamples.pointDeps true)
                  [ Debounce.ViewStateChange; Debounce.Elapse 600;
                    Debounce.ViewStateChange ])).
Proof.
  apply (viewport_changes_all_fetch
           [ Debounce.ViewStateChange; Debounce.Elapse 600;
             Debounce.ViewStateChange ]
           (Debounce.mount DebounceSamples.pointDeps true)).
  reflexivity.
Defined.

(** X13: no fetch comes from nowhere: over any sequence of events the
    number of fetches issued is at most the number of viewport changes
    plus the number of dependency changes, plus one if a timer was
    pending at the start. Time passing alone issues at most the pending
    fetch. *)
Theorem fetches_bounded_by_events (evs : list Debounce.Event) (s : Debounce.Sched) :
  length (Debounce.calls (Debounce.run s evs))
  <= length (Debounce.calls s) + DebounceBursts.pending s +
       length (List.filter DebounceBursts.isViewStateChange evs) +
       length (List.filter DebounceBursts.isDependencyChange evs).
Proof.
  enough (Hinv : length (Debounce.calls (Debounce.run s evs)) +
                   DebounceBursts.pending (Debounce.run s evs)
                 <= length (Debounce.calls s) + DebounceBursts.pending s +
                      length (List.filter DebounceBursts.isViewStateChange evs) +
                      length (List.filter DebounceBursts.isDependencyChange evs))
    by lia.
  revert s. induction evs as [|ev evs IH]; intros s; [cbn; lia|].
  change (Debounce.run s (ev :: evs))
    with (Debounce.run (Debounce.step s ev) evs).
  specialize (IH (Debounce.step s ev)).
  destruct (DebounceBurstFacts.step_calls_bounds s ev) as [_ Hup].
  cbn [List.filter].
  destruct (DebounceBursts.isViewStateChange ev),
    (DebounceBursts.isDependencyChange ev); cbn [length]; lia.
Qed.

(** ** Sounding dates and tooltips *)

Section TooltipFacts.
Context `{Formatter}.

Lemma parseSoundingDate_long (id : JsVal) (str : string) :
  truthy id = true -> toString id = Some str -> 14 <= String.length str ->
  parseSoundingDate id =
    Some (JStr (slice 0 4 str ++ "-" ++ slice 4 6 str ++ "-" ++ slice 6 8 str ++
                " " ++ slice 8 10 str ++ ":" ++ slice 10 12 str ++ ":" ++
                slice 12 14 str)%string).
Proof.
  intros Ht Hs Hl. unfold parseSoundingDate. rewrite Ht, Hs. simpl.
  destruct (Nat.ltb_spec (String.length str) 14); [lia|reflexivity].
Qed.

Lemma parseSoundingDate_string_inv (id : JsVal) (r : string) :
  parseSoundingDate id = Some (JStr r) ->
  exists str, truthy id = true /\ toString id = Some str /\
    14 <= String.length str.
Proof.
  unfold parseSoundingDate. destruct (truthy id); [|discriminate]. simpl.
  destruct (toString id) as [str|]; [|discriminate]. simpl.
  destruct (Nat.ltb_spec (String.length str) 14); [discriminate|]. eauto.
Qed.

End TooltipFacts.

(** Fourteen leading characters of a string that has them. *)
Ltac first_fourteen str Hlen :=
  do 14 (destruct str as [|? str]; [simpl in Hlen; lia|]).

(** X14: a date returned by [parseSoundingDate] is 19 characters long,
    [YYYY-MM-DD hh:mm:ss], with the separators in place; taking the
    separators out gives back the first fourteen characters of the id as
    a string. Nothing checks that these are digits, and whatever follows
    them is ignored. *)
Theorem parseSoundingDate_round_trip `{Formatter} (id : JsVal) (str date : string) :
  toString id = Some str ->
  parseSoundingDate id = Some (JStr date) ->
  String.length date = 19 /\
  dateDigits date = slice 0 14 str /\
  slice 4 5 date = "-" /\ slice 7 8 date = "-" /\ slice 10 11 date = " " /\
  slice 13 14 date = ":" /\ slice 16 17 date = ":".
Proof.
  intros Hs Hd.
  destruct (parseSoundingDate_string_inv id date Hd) as (str' & Ht & Hs' & Hl).
  rewrite Hs in Hs'. injection Hs' as <-.
  rewrite (parseSoundingDate_long id str Ht Hs Hl) in Hd.
  injection Hd as <-. clear Hs Ht.
  first_fourteen str Hl. clear Hl. destruct str; repeat split; reflexivity.
Qed.

Lemma parseSoundingDate_round_trip_witness :
  String.length "2020-01-01 12:34:56" = 19 /\
  dateDigits "2020-01-01 12:34:56" = slice 0 14 "2020010112345678" /\
  slice 4 5 "2020-01-01 12:34:56" = "-" /\
  slice 7 8 "2020-01-01 12:34:56" = "-" /\
  slice 10 11 "2020-01-01 12:34:56" = " " /\
  slice 13 14 "2020-01-01 12:34:56" = ":" /\
  slice 16 17 "2020-01-01 12:34:56" = ":".
Proof.
  apply (@parseSoundingDate_round_trip exactFormatter (JNum 2020010112345678)).
  - reflexivity.
  - reflexivity.
Defined.

(** [parseSoundingDate] returns [null] exactly when the id is falsy or
    its string has fewer than fourteen characters. *)
Lemma parseSoundingDate_null_iff `{Formatter} (id : JsVal) :
  parseSoundingDate id = Some JNull <->
  truthy id = false \/
  exists str, toString id = Some str /\ String.length str < 14.
Proof.
  unfold parseSoundingDate. destruct (truthy id) eqn:Ht; simpl.
  - destruct (toString id) as [str|]; simpl.
    + destruct (Nat.ltb_spec (String.length str) 14); split.
      * intros _. right. eauto.
      * reflexivity.
      * discriminate.
      * intros [?|(str' & [= <-] & ?)]; [discriminate|lia].
    + split; [discriminate|]. intros [?|(str' & ? & _)]; discriminate.
  - split; [auto|reflexivity].
Qed.

(** X16: the filter does not make [getTooltip] safe. On a record kept by
    [validData] whose sounding id can be read, [getTooltip] returns a
    tooltip with the latitude taken from [position[1]] and the longitude
    from [position[0]] when both coordinates are numbers, and throws when
    one of them is not: [validData] checks the length of [position], not
    its elements. *)
Theorem getTooltip_on_valid_feature `{Formatter} (viewMode : string)
    (d a b : JsVal) :
  validFeature viewMode d = true ->
  get d "position" = JArr [a; b] ->
  is_Some (parseSoundingDate (get d "sounding_id")) ->
  (forall x y, a = JNum x -> b = JNum y ->
     exists t, getTooltip d = Some (Some t) /\
       latitudeText t = numberToFixed y 2 /\
       longitudeText t = numberToFixed x 2) /\
  (typeof a <> "number" \/ typeof b <> "number" -> getTooltip d = None).
Proof.
  intros Hv Hp [date Hdate].
  destruct (validFeature_xco2 viewMode d Hv) as (v & Hx & _).
  assert (Ht : truthy d = true).
  { destruct d; simpl in Hp; try discriminate; reflexivity. }
  unfold getTooltip. rewrite Ht, Hdate, Hx, Hp. simpl. split.
  - intros x y -> ->. simpl. eexists. repeat split.
  - intros [Ha|Hb].
    + destruct b; simpl; try reflexivity.
      destruct a; simpl; try reflexivity. contradiction.
    + destruct b; simpl; try reflexivity. contradiction.
Qed.

Lemma getTooltip_on_valid_feature_witness :
  (forall x y, JNum 10.5 = JNum x -> JNum 20.5 = JNum y ->
     exists t, @getTooltip exactFormatter goodSounding = Some (Some t) /\
       latitudeText t = toFixedExact y 2 /\
       longitudeText t = toFixedExact x 2) /\
  (typeof (JNum 10.5) <> "number" \/ typeof (JNum 20.5) <> "number" ->
   @getTooltip exactFormatter goodSounding = None).
Proof.
  apply (@getTooltip_on_valid_feature exactFormatter "point" goodSounding
           (JNum 10.5) (JNum 20.5)).
  - reflexivity.
  - reflexivity.
  - eexists. vm_compute. reflexivity.
Defined.

Example getTooltip_samples :
  @getTooltip exactFormatter goodSounding =
    Some (Some {| xco2Text := "400.50"; latitudeText := "20.50";
                  longitudeText := "10.50";
                  dateLine := Some "2020-01-01 12:00:00" |}) /\
  @getTooltip exactFormatter JNull = Some None /\
  @getTooltip exactFormatter
    (JObj [("position", JArr [JStr "a"; JStr "b"]); ("xco2", JNum 400)]) = None /\
  validFeature "point"
    (JObj [("position", JArr [JStr "a"; JStr "b"]); ("xco2", JNum 400)]) = true.
Proof. vm_compute. repeat split. Qed.

(** ** Base maps *)

(** X17: every base map of the three radio buttons has a style for both
    positions of the labels switch, so [getCurrentMapStyle] does not
    throw on them; and the sidebar shows the switch exactly for the base
    map whose two styles differ. *)
Theorem getCurrentMapStyle_labels (currentBaseMap : string) :
  In currentBaseMap baseMaps ->
  exists labeled unlabeled,
    getCurrentMapStyle currentBaseMap true = Some (JStr labeled) /\
    getCurrentMapStyle currentBaseMap false = Some (JStr unlabeled) /\
    (labelsSwitchVisible currentBaseMap = true <-> labeled <> unlabeled).
Proof.
  intros [<-|[<-|[<-|[]]]]; do 2 eexists;
    (split; [reflexivity|]); (split; [reflexivity|]); cbn; split;
    solve [discriminate | intros H; contradiction H; reflexivity
          | intros _; reflexivity | intros _; discriminate ].
Qed.

Lemma getCurrentMapStyle_labels_witness :
  exists labeled unlabeled,
    getCurrentMapStyle "Dark" true = Some (JStr labeled) /\
    getCurrentMapStyle "Dark" false = Some (JStr unlabeled) /\
    (labelsSwitchVisible "Dark" = true <-> labeled <> unlabeled).
Proof.
  apply (getCurrentMapStyle_labels "Dark"). right. right. left. reflexivity.
Defined.

(** ** [createTrajectories] on any points it can place *)

Lemma hasPosition_inv (e : Elem) :
  hasPosition e = true ->
  exists props, e = EVal (JObj props) /\
    own props "position" <> JUndefined /\ own props "position" <> JNull.
Proof.
  unfold hasPosition. destruct e as [v|]; [|discriminate].
  destruct v as [| | | | |l|props]; simpl; try discriminate.
  intros Hp. exists props. split; [reflexivity|].
  destruct (own props "position"); try discriminate; split; discriminate.
Qed.

Lemma coordinate_hasPosition (e : Elem) (i : nat) :
  hasPosition e = true ->
  truthyElem e = true /\ is_Some (coordinate e i) /\ is_Some (sortKey e).
Proof.
  intros He. destruct (hasPosition_inv e He) as (props & -> & Hu & Hn).
  unfold sortKey, coordinate. simpl.
  assert (Hi : forall j, is_Some (item (own props "position") j)).
  { intros j. destruct (own props "position"); simpl; eauto; contradiction. }
  repeat split; [apply Hi|].
  destruct (truthy (own props "time")); [eauto|apply Hi].
Qed.

Lemma plottable_inv (e : Elem) :
  plottable e = true ->
  truthyElem e = true /\ sortable e = true /\
  exists x y, coordinate e 0 = Some x /\ coordinate e 1 = Some y /\
    convertible x = true /\ convertible y = true.
Proof.
  unfold plottable. intros Hp.
  apply andb_prop in Hp as [Hp Hs]. apply andb_prop in Hp as [Hpos Hc].
  destruct (coordinate_hasPosition e 0 Hpos) as (Ht & _ & _).
  destruct (coordinate e 0) as [x|]; [|discriminate].
  destruct (coordinate e 1) as [y|]; [|discriminate].
  apply andb_prop in Hc as [Hx Hy]. eauto 10.
Qed.

Section LoopStructure.
Context `{Formatter} `{Engine}.

Lemma byTime_plottable (a b : Elem) :
  plottable a = true -> plottable b = true -> is_Some (byTime a b).
Proof.
  intros Ha Hb.
  destruct (plottable_inv a Ha) as (_ & Hsa & _).
  destruct (plottable_inv b Hb) as (_ & Hsb & _).
  apply byTime_sortable; assumption.
Qed.

Lemma apart_convertible (a b : JsVal) :
  convertible a = true -> convertible b = true -> is_Some (apart a b).
Proof.
  intros Ha Hb. destruct (subtract_convertible a b Ha Hb) as [d Hd].
  unfold apart. rewrite Hd. simpl. eauto.
Qed.

Lemma breaksLine_plottable (p : Elem) (np : option Elem) :
  plottable p = true ->
  (forall e, np = Some e -> plottable e = true) ->
  is_Some (breaksLine p np).
Proof.
  intros Hp Hnp. destruct np as [e|]; simpl; [|eauto].
  specialize (Hnp e eq_refl).
  destruct (plottable_inv p Hp) as (_ & _ & p0 & p1 & Hp0 & Hp1 & Hcp0 & Hcp1).
  destruct (plottable_inv e Hnp) as (Ht & _ & e0 & e1 & He0 & He1 & Hce0 & Hce1).
  rewrite Ht, He0, Hp0, He1, Hp1. simpl.
  destruct (apart_convertible e0 p0 Hce0 Hcp0) as [far ->]. simpl.
  destruct far; [eauto|]. apply apart_convertible; assumption.
Qed.

Variables (h0 : heap) (sortedPoints trajectories : loc) (ys : list Elem).
Hypothesis ys_plottable : Forall (fun e => plottable e = true) ys.

(** The lines pushed so far, where they are stored. *)
Definition kept (h : heap) (currentLine : loc) (locs : list loc)
    (lines : list (list Elem)) : Prop :=
  h !! trajectories = Some (ERef <$> locs) /\
  Forall2 (fun l line => l <> currentLine /\ l <> trajectories /\
             h !! l = Some line /\ 2 <= length line) locs lines.

Lemma loop_structure (fuel : nat) :
  forall (i : nat) (currentLine : loc) (h : heap) (line : list Elem)
         (locs : list loc) (lines : list (list Elem)),
  length ys <= fuel + i ->
  h !! sortedPoints = Some ys ->
  sortedPoints <> currentLine -> sortedPoints <> trajectories ->
  currentLine <> trajectories ->
  h !! currentLine = Some line ->
  kept h currentLine locs lines ->
  sublist (concat lines ++ line) (take i ys) ->
  framed h0 h -> currentLine ∉ dom h0 -> trajectories ∉ dom h0 ->
  exists h' locs' lines',
    loop fuel i sortedPoints trajectories currentLine h = Some h' /\
    h' !! trajectories = Some (ERef <$> locs') /\
    Forall2 (fun l line => h' !! l = Some line /\ 2 <= length line) locs' lines' /\
    sublist (concat lines') ys /\
    framed h0 h'.
Proof.
  assert (Hdone : forall i cur h line locs lines,
            length ys <= i -> kept h cur locs lines ->
            sublist (concat lines ++ line) (take i ys) -> framed h0 h ->
            exists h' locs' lines',
              Some h = Some h' /\
              h' !! trajectories = Some (ERef <$> locs') /\
              Forall2 (fun l line => h' !! l = Some line /\ 2 <= length line)
                locs' lines' /\
              sublist (concat lines') ys /\ framed h0 h').
  { intros i cur h line locs lines Hi [Htr Hk] Hsub Hfr.
    exists h, locs, lines. repeat split; auto.
    - eapply Forall2_impl; [exact Hk|]. intros l ln (_ & _ & ? & ?). auto.
    - rewrite take_ge in Hsub by lia.
      etransitivity; [|exact Hsub]. apply sublist_inserts_r. reflexivity. }
  induction fuel as [|fuel IH];
    intros i cur h line locs lines Hlen Hsp Hsc Hst Hct Hcur Hkept Hsub Hfr Hc0 Ht0.
  - simpl. rewrite Hsp. simpl.
    rewrite (lookup_ge_None_2 ys i) by lia.
    apply (Hdone i cur h line locs lines); auto; lia.
  - simpl. rewrite Hsp. simpl.
    destruct (ys !! i) as [point|] eqn:Ei.
    2:{ apply (Hdone i cur h line locs lines); auto.
        apply lookup_ge_None_1 in Ei. exact Ei. }
    destruct Hkept as [Htr Hk].
    unfold push at 1. rewrite Hcur. simpl.
    set (h1 := <[cur := line ++ [point]]> h).
    assert (Hp : plottable point = true).
    { exact (Forall_lookup_1 (fun e => plottable e = true) ys i point
               ys_plottable Ei). }
    assert (H1sp : h1 !! sortedPoints = Some ys).
    { unfold h1. rewrite lookup_insert_ne; auto. }
    assert (H1cur : h1 !! cur = Some (line ++ [point])).
    { unfold h1. apply lookup_insert_eq. }
    assert (H1tr : h1 !! trajectories = Some (ERef <$> locs)).
    { unfold h1. rewrite lookup_insert_ne; auto. }
    assert (H1fr : framed h0 h1) by (apply framed_insert; assumption).
    assert (H1k : Forall2 (fun l ln => l <> cur /\ l <> trajectories /\
              h1 !! l = Some ln /\ 2 <= length ln) locs lines).
    { eapply Forall2_impl; [exact Hk|]. intros l ln (Hl1 & Hl2 & Hl3 & Hl4).
      repeat split; auto. unfold h1. rewrite lookup_insert_ne; auto. }
    assert (H1sub : sublist (concat lines ++ line ++ [point]) (take (S i) ys)).
    { rewrite (take_S_r ys i point Ei), app_assoc.
      apply sublist_app; [exact Hsub|reflexivity]. }
    destruct (breaksLine_plottable point (ys !! (i + 1)) Hp) as [ends ->].
    { intros e He.
      exact (Forall_lookup_1 (fun e => plottable e = true) ys (i + 1) e
               ys_plottable He). }
    simpl. destruct ends.
    + assert (Hclose : exists h2 locs2 lines2,
                closeLine trajectories cur h1 = Some h2 /\
                h2 !! sortedPoints = Some ys /\
                framed h0 h2 /\ kept h2 cur locs2 lines2 /\
                is_Some (h2 !! cur) /\
                sublist (concat lines2) (take (S i) ys)).
      { unfold closeLine. rewrite H1cur. simpl.
        destruct (1 <? length (line ++ [point]))%nat eqn:Elen.
        - unfold spread. rewrite H1cur. simpl.
          set (c := fresh (dom h1)).
          assert (Hc : h1 !! c = None) by apply fresh_None.
          unfold push. rewrite lookup_insert_ne by congruence.
          rewrite H1tr. simpl.
          eexists _, (locs ++ [c]), (lines ++ [line ++ [point]]).
          split; [reflexivity|].
          assert (Hctr : c <> trajectories) by congruence.
          assert (Hccur : c <> cur) by congruence.
          assert (Hcsp : c <> sortedPoints) by congruence.
          split; [|split; [|split; [|split]]].
          + rewrite !lookup_insert_ne by auto. exact H1sp.
          + apply framed_insert; [|exact Ht0].
            apply framed_insert; [exact H1fr|].
            eapply framed_fresh; eassumption.
          + split.
            * rewrite lookup_insert_eq, fmap_app. reflexivity.
            * apply Forall2_app.
              -- eapply Forall2_impl; [exact H1k|].
                 intros l ln (Hl1 & Hl2 & Hl3 & Hl4).
                 repeat split; auto.
                 rewrite !lookup_insert_ne by congruence. exact Hl3.
              -- constructor; [|constructor]. repeat split; auto.
                 ++ rewrite lookup_insert_ne by auto. apply lookup_insert_eq.
                 ++ apply Nat.ltb_lt in Elen. lia.
          + rewrite !lookup_insert_ne by auto. rewrite H1cur. eauto.
          + rewrite concat_app. simpl. rewrite app_nil_r. exact H1sub.
        - exists h1, locs, lines. unfold kept. rewrite H1cur.
          repeat split; eauto.
          etransitivity; [|exact H1sub]. apply sublist_inserts_r. reflexivity. }
      destruct Hclose as (h2 & locs2 & lines2 & -> & H2sp & H2fr & [H2tr H2k]
                          & H2cur & H2sub).
      simpl. set (cur' := fresh (dom h2)).
      assert (Hc' : h2 !! cur' = None) by apply fresh_None.
      assert (Hc'sp : sortedPoints <> cur') by congruence.
      assert (Hc'tr : cur' <> trajectories) by congruence.
      apply (IH (S i) cur' (<[cur' := []]> h2) [] locs2 lines2).
      * lia.
      * rewrite lookup_insert_ne by auto. exact H2sp.
      * exact Hc'sp.
      * exact Hst.
      * exact Hc'tr.
      * apply lookup_insert_eq.
      * split.
        -- rewrite lookup_insert_ne by auto. exact H2tr.
        -- eapply Forall2_impl; [exact H2k|].
           intros l ln (Hl1 & Hl2 & Hl3 & Hl4).
           assert (l <> cur') by congruence.
           repeat split; auto.
           rewrite lookup_insert_ne by auto. exact Hl3.
      * rewrite app_nil_r. exact H2sub.
      * apply framed_insert; [exact H2fr|]. eapply framed_fresh; eassumption.
      * eapply framed_fresh; eassumption.
      * exact Ht0.
    + apply (IH (S i) cur h1 (line ++ [point]) locs lines); auto.
      * lia.
      * split; assumption.
Qed.

End LoopStructure.

Lemma mapM_kept (h : heap) (locs : list loc) (lines : list (list Elem)) :
  Forall2 (fun l line => h !! l = Some line /\ 2 <= length line) locs lines ->
  mapM (fun r => match r with ERef l => h !! l | EVal _ => None end)
    (ERef <$> locs) = Some lines /\
  Forall (fun line => 2 <= length line) lines.
Proof.
  induction 1 as [|l line locs lines [Hl Hlen] _ [IH Hall]].
  - split; [reflexivity|constructor].
  - rewrite fmap_cons. cbn [mapM]. rewrite Hl. cbn [mbind option_bind].
    rewrite IH. split; [reflexivity|]. constructor; assumption.
Qed.

Lemma concat_long_lines (lines : list (list Elem)) :
  Forall (fun line => 2 <= length line) lines ->
  2 * length lines <= length (concat lines).
Proof.
  induction 1 as [|line lines Hl _ IH]; simpl; [lia|].
  rewrite length_app. lia.
Qed.

(** The structure of the result, for any engine and any points it can
    place. *)
Lemma createTrajectories_structure `{Formatter} `{Engine} (h : heap) (points : loc)
    (ps : list Elem) :
  h !! points = Some ps ->
  Forall (fun e => plottable e = true) ps ->
  exists trajectories h' lines,
    createTrajectories h points = Some (trajectories, h') /\
    readLines h' trajectories = Some lines /\
    Forall (fun line => 2 <= length line) lines /\
    (concat lines ⊆+ ps) /\
    (trajectories ∉ dom h) /\
    (forall l, l ∈ dom h -> h' !! l = h !! l).
Proof.
  intros Hps Hpos. unfold createTrajectories, alloc.
  set (traj := fresh (dom h)). set (h1 := <[traj := []]> h).
  set (cur := fresh (dom h1)). set (h2 := <[cur := []]> h1).
  assert (Htraj : h !! traj = None) by apply fresh_None.
  assert (Hcur : h1 !! cur = None) by apply fresh_None.
  assert (Hct : cur <> traj).
  { intros E. rewrite E in Hcur. unfold h1 in Hcur.
    rewrite lookup_insert_eq in Hcur. discriminate. }
  assert (Hpt : traj <> points) by congruence.
  assert (H1ps : h1 !! points = Some ps).
  { unfold h1. rewrite lookup_insert_ne by auto. exact Hps. }
  assert (Hpc : cur <> points) by congruence.
  assert (H2ps : h2 !! points = Some ps).
  { unfold h2. rewrite lookup_insert_ne by auto. exact H1ps. }
  unfold spread, alloc. rewrite H2ps. simpl.
  set (sp := fresh (dom h2)).
  assert (Hsp : h2 !! sp = None) by apply fresh_None.
  assert (Hsc : sp <> cur).
  { intros E. rewrite E in Hsp. unfold h2 in Hsp.
    rewrite lookup_insert_eq in Hsp. discriminate. }
  assert (Hst : sp <> traj).
  { intros E. rewrite E in Hsp. unfold h2, h1 in Hsp.
    rewrite lookup_insert_ne, lookup_insert_eq in Hsp by auto. discriminate. }
  rewrite lookup_insert_eq. simpl.
  destruct (array_sort_returns byTime ps) as [ys Hsort].
  { intros a b Ha Hb. rewrite Forall_forall in Hpos.
    apply byTime_plottable; auto. }
  pose proof (array_sort_permutes _ _ _ Hsort) as Hperm.
  rewrite Hsort. simpl.
  assert (Hys : Forall (fun e => plottable e = true) ys)
    by (rewrite Hperm; exact Hpos).
  assert (Hfr0 : forall l, l ∈ dom h -> l <> traj /\ l <> cur /\ l <> sp).
  { intros l Hl. apply elem_of_dom in Hl as [xs Hl].
    assert (l <> traj) by congruence.
    assert (h1 !! l = Some xs) by (unfold h1; rewrite lookup_insert_ne; auto).
    assert (l <> cur) by congruence.
    assert (h2 !! l = Some xs) by (unfold h2; rewrite lookup_insert_ne; auto).
    assert (l <> sp) by congruence. auto. }
  destruct (loop_structure h sp traj ys Hys (length ys) 0 cur
              (<[sp := ys]> (<[sp := ps]> h2)) [] [] [])
    as (h' & locs & lines & -> & Htr' & Hk & Hsub & Hfr).
  - lia.
  - apply lookup_insert_eq.
  - exact Hsc.
  - exact Hst.
  - exact Hct.
  - rewrite !lookup_insert_ne by auto. apply lookup_insert_eq.
  - split; [|constructor].
    rewrite !lookup_insert_ne by auto. unfold h2.
    rewrite lookup_insert_ne by auto. apply lookup_insert_eq.
  - apply sublist_nil_l.
  - intros l Hl. destruct (Hfr0 l Hl) as (? & ? & ?).
    rewrite !lookup_insert_ne by auto. unfold h2, h1.
    rewrite !lookup_insert_ne by auto. reflexivity.
  - intros Hin. destruct (Hfr0 cur Hin) as (_ & ? & _). congruence.
  - intros Hin. destruct (Hfr0 traj Hin) as (? & _). congruence.
  - simpl. destruct (mapM_kept h' locs lines Hk) as [Hr Hlong].
    exists traj, h', lines. repeat split; auto.
    + unfold readLines. rewrite Htr'. exact Hr.
    + rewrite <- Hperm. apply sublist_submseteq, Hsub.
    + apply not_elem_of_dom, Htraj.
Qed.

(** X18: on points that all have a [position] whose two coordinates
    have a primitive value, and a [time] that is falsy or has one,
    numbers or not, [createTrajectories] returns. The points of the lines
    it returns are points of the input, none used twice; every line has
    at least two of them; so an input of fewer than two points, the empty
    array included, gives no line at all. Arrays that existed before the
    call are left as they were. *)
Theorem createTrajectories_uses_input_points `{Formatter} `{Engine} (h : heap)
    (points : loc) (ps : list Elem) :
  h !! points = Some ps ->
  Forall (fun e => plottable e = true) ps ->
  exists trajectories h' lines,
    createTrajectories h points = Some (trajectories, h') /\
    readLines h' trajectories = Some lines /\
    (concat lines ⊆+ ps) /\
    2 * length lines <= length ps /\
    (length ps < 2 -> lines = []) /\
    (forall l, l ∈ dom h -> h' !! l = h !! l).
Proof.
  intros Hps Hpos.
  destruct (createTrajectories_structure h points ps Hps Hpos)
    as (traj & h' & lines & Hc & Hr & Hlong & Hsub & _ & Hfr).
  exists traj, h', lines.
  pose proof (concat_long_lines lines Hlong) as Hl2.
  pose proof (submseteq_length _ _ Hsub) as Hl3.
  split; [exact Hc|]. split; [exact Hr|]. split; [exact Hsub|].
  split; [lia|]. split; [|exact Hfr].
  intros Hshort. destruct lines; [reflexivity|].
  exfalso. cbn [length] in Hl2. lia.
Qed.

Lemma createTrajectories_uses_input_points_witness :
  exists trajectories h' lines,
    @createTrajectories exactFormatter referenceEngine mixedHeap 0 =
      Some (trajectories, h') /\
    readLines h' trajectories = Some lines /\
    (concat lines ⊆+ mixedPoints) /\
    2 * length lines <= length mixedPoints /\
    (length mixedPoints < 2 -> lines = []) /\
    (forall l, l ∈ dom mixedHeap -> h' !! l = mixedHeap !! l).
Proof.
  apply (@createTrajectories_uses_input_points exactFormatter referenceEngine
           mixedHeap 0 mixedPoints).
  - reflexivity.
  - repeat constructor.
Defined.

Example createTrajectories_mixed_run :
  (match @createTrajectories exactFormatter referenceEngine mixedHeap 0 with
   | Some (t, h) => readLines h t
   | None => None
   end) = Some [ [ located JNull (JStr "north"); located (JStr "1") (JNum 0);
                   located (JArr [JNum 1.5]) (JStr " 0.5 ") ] ].
Proof. vm_compute. reflexivity. Qed.

(** A coordinate that has no primitive value makes the call throw. *)
Example createTrajectories_bad_coordinate :
  let bad := located (JObj [("toString", JNum 1)]) (JNum 0) in
  hasPosition bad = true /\
  @createTrajectories exactFormatter referenceEngine {[ 0 := [bad; bad] ]} 0 = None.
Proof. split; vm_compute; reflexivity. Qed.

(** ** The layer list *)

Lemma validFeature_hasPosition (viewMode : string) (d : JsVal) :
  validFeature viewMode d = true -> hasPosition (EVal d) = true.
Proof.
  unfold validFeature, validPoint, validPolygon, hasPosition.
  destruct (String.eqb viewMode "point"); intros Hv;
    repeat (apply andb_prop in Hv as [Hv ?]);
    destruct (get d "position"); try discriminate; reflexivity.
Qed.

Lemma validData_hasPosition (data : JsVal) (viewMode : string) (valid : list JsVal) :
  validData data viewMode = Some valid ->
  Forall (fun e => hasPosition e = true) (EVal <$> valid).
Proof.
  intros Hv. apply Forall_fmap, Forall_forall. intros d Hd.
  apply (validFeature_hasPosition viewMode).
  eapply validData_In; [exact Hv|]. apply list_elem_of_In, Hd.
Qed.

(** X19: a render does not throw after [validData] has returned,
    provided that in globe mode [createTrajectories] can place every
    record the filter kept: its coordinates and its [time] have a
    primitive value, as numbers have. The layer list has at most two
    layers, with different ids; every layer that is coloured by [xco2]
    draws the array of [validData] itself, which [createTrajectories]
    has not reordered, and every record of it has an [xco2] from 380 to
    420, the domain of the colour scale. Arrays that existed before the
    render are left as they were. *)
Theorem renderLayers_after_validData `{Formatter} `{Engine} (h : heap)
    (s : AppState) (zoom : float) (valid : list JsVal) :
  validData (data s) (viewMode s) = Some valid ->
  (isGlobeMode s = true ->
   Forall (fun d => plottable (EVal d) = true) valid) ->
  exists ls validLoc h',
    renderLayers h s zoom = Some (ls, validLoc, h') /\
    h' !! validLoc = Some (EVal <$> valid) /\
    length ls <= 2 /\
    NoDup (layerId <$> ls) /\
    (forall l dataLoc, l ∈ ls -> colouredData l = Some dataLoc ->
       dataLoc = validLoc) /\
    (forall d, In d valid ->
       exists v, get d "xco2" = JNum v /\
         (380 <=? v)%float = true /\ (v <=? 420)%float = true) /\
    (forall l, l ∈ dom h -> h' !! l = h !! l).
Proof.
  intros Hv Hplace. unfold renderLayers, alloc. rewrite Hv. simpl.
  set (validLoc := fresh (dom h)).
  set (hA := <[validLoc := EVal <$> valid]> h).
  assert (Hfresh : h !! validLoc = None) by apply fresh_None.
  assert (HA : hA !! validLoc = Some (EVal <$> valid))
    by apply lookup_insert_eq.
  assert (Hframe : forall l, l ∈ dom h -> hA !! l = h !! l).
  { intros l Hl. unfold hA. rewrite lookup_insert_ne; [reflexivity|].
    intros <-. apply elem_of_dom in Hl as [xs Hl]. congruence. }
  assert (Hrange : forall d, In d valid ->
            exists v, get d "xco2" = JNum v /\
              (380 <=? v)%float = true /\ (v <=? 420)%float = true).
  { intros d Hd. eapply validFeature_xco2, validData_In; eassumption. }
  assert (Hids : forall (lines : list Layer),
            lines = [] \/ (exists t, lines = [LineLayer "trajectories" t]) ->
            let ls := lines ++
              (if String.eqb (viewMode s) "point" then
                 [ScatterplotLayer "points" validLoc (getPointRadius zoom)
                    (if isGlobeMode s then 15 else 10) (isGlobeMode s)]
               else []) ++
              (if String.eqb (viewMode s) "polygon" then
                 [PolygonLayer "grid-cells" validLoc (isGlobeMode s)]
               else []) in
            length ls <= 2 /\ NoDup (layerId <$> ls) /\
            (forall l dataLoc, l ∈ ls -> colouredData l = Some dataLoc ->
               dataLoc = validLoc)).
  { intros lines Hlines.
    destruct (String.eqb_spec (viewMode s) "point") as [Ep|_];
      destruct (String.eqb_spec (viewMode s) "polygon") as [Eq|_];
      try (rewrite Ep in Eq; discriminate Eq);
      destruct Hlines as [->|[t ->]]; cbn;
      (split; [lia|]);
      (split; [apply (bool_decide_unpack _); vm_compute; exact I|]);
      intros l dataLoc Hl Hc;
      repeat (apply elem_of_cons in Hl as [->|Hl]);
      try (apply elem_of_nil in Hl; contradiction);
      cbn in Hc; congruence. }
  unfold layers.
  destruct (negb (truthy (data s)) || length_is (data s) 0).
  { exists [], validLoc, hA. simpl.
    split; [reflexivity|]. split; [exact HA|]. split; [lia|].
    split; [constructor|]. split; [|split; [exact Hrange|exact Hframe]].
    intros l dataLoc Hl. apply elem_of_nil in Hl. contradiction. }
  destruct (isGlobeMode s) eqn:Hg.
  - destruct (createTrajectories_structure hA validLoc (EVal <$> valid) HA)
      as (traj & h' & lines & -> & _ & _ & _ & _ & Hfr).
    { apply Forall_fmap. exact (Hplace eq_refl). }
    simpl. eexists _, validLoc, h'. split; [reflexivity|].
    destruct (Hids [LineLayer "trajectories" traj]) as (Hlen & Hnd & Hcol);
      [eauto|]. try rewrite Hg in *.
    split; [|split; [exact Hlen|split; [exact Hnd|split; [exact Hcol|split]]]].
    + rewrite Hfr; [exact HA|]. apply elem_of_dom. eauto.
    + exact Hrange.
    + intros l Hl. rewrite Hfr; [apply Hframe, Hl|].
      apply elem_of_dom. rewrite (Hframe l Hl). apply elem_of_dom, Hl.
  - simpl. eexists _, validLoc, hA. split; [reflexivity|].
    destruct (Hids []) as (Hlen & Hnd & Hcol); [auto|]. try rewrite Hg in *.
    split; [exact HA|]. split; [exact Hlen|]. split; [exact Hnd|].
    split; [exact Hcol|]. split; [exact Hrange|exact Hframe].
Qed.

Lemma renderLayers_after_validData_witness :
  exists ls validLoc h',
    @renderLayers exactFormatter referenceEngine ∅ shownState 2 =
      Some (ls, validLoc, h') /\
    h' !! validLoc = Some (EVal <$> [goodSounding]) /\
    length ls <= 2 /\
    NoDup (layerId <$> ls) /\
    (forall l dataLoc, l ∈ ls -> colouredData l = Some dataLoc ->
       dataLoc = validLoc) /\
    (forall d, In d [goodSounding] ->
       exists v, get d "xco2" = JNum v /\
         (380 <=? v)%float = true /\ (v <=? 420)%float = true) /\
    (forall l, l ∈ dom (∅ : heap) -> h' !! l = (∅ : heap) !! l).
Proof.
  apply (@renderLayers_after_validData exactFormatter referenceEngine
           ∅ shownState 2 [goodSounding]).
  - reflexivity.
  - intros _. repeat constructor.
Defined.

Example renderLayers_globe_points :
  (match @renderLayers exactFormatter referenceEngine ∅ shownState 2 with
   | Some (ls, _, _) => ls
   | None => []
   end) =
  [ LineLayer "trajectories" 1;
    ScatterplotLayer "points" 0 100000 15 true ].
Proof. vm_compute. reflexivity. Qed.

(** The filter alone does not make a render safe: it keeps a record
    whose longitude has no primitive value, and in globe mode the
    render throws on it. *)
Example renderLayers_unplaceable :
  let d := JObj [ ("position", JArr [JObj [("toString", JNum 1)]; JNum 0]);
                  ("xco2", JNum 400) ] in
  let s := {| data := JArr [d; d]; error := None; viewMode := "point";
              isGlobeMode := true; startDate := ""; endDate := "";
              console := [] |} in
  validData (data s) (viewMode s) = Some [d; d] /\
  @renderLayers exactFormatter referenceEngine ∅ s 2 = None.
Proof. split; vm_compute; reflexivity. Qed.
